(** * The asset chaincode of the Fabric assignment, and its specification

    A shallow embedding of the smart contract [SmartContract] (package
    [chaincode]): the [Asset] record, its JSON wire form, and the eight
    transactions [InitLedger], [CreateAsset], [ReadAsset], [UpdateAsset],
    [DeleteAsset], [AssetExists], [TransferAsset] and [GetAllAssets], run
    against a model of the ledger stub.

    What is outside the contract is modelled at its documented interface:
    - [encoding/json] up to JSON lexing: a byte string that is a JSON text is
      represented by the value it parses to; what [Marshal] and [Unmarshal]
      do with struct fields, key names, non-finite numbers and strings that
      are not valid UTF-8 is written out;
    - the ledger stub as a finite map from keys to values, with a fault
      oracle deciding which calls fail. *)

From Stdlib Require Import Ascii String NArith PrimFloat.
From stdpp Require Import gmap strings list fin_maps sorting.

Local Open Scope string_scope.

(** ** Go strings as byte strings, and UTF-8 *)

Module UTF8.

(** What the first byte of an encoding announces: a one, two, three or
    four byte encoding (with the range the second byte has to lie in), or
    no encoding at all. This is the table [first] with [acceptRanges] of
    Go's [unicode/utf8]. *)
Inductive lead_kind :=
| L1
| L2
| L3 (lo hi : N)
| L4 (lo hi : N)
| LX.

Definition between (lo hi : N) (c : ascii) : bool :=
  ((lo <=? N_of_ascii c) && (N_of_ascii c <=? hi))%N.

Definition cont (c : ascii) : bool := between 128 191 c.

Definition lead (c : ascii) : lead_kind :=
  let n := N_of_ascii c in
  if (n <? 128)%N then L1
  else if (n <? 194)%N then LX
  else if (n <? 224)%N then L2
  else if (n =? 224)%N then L3 160 191
  else if (n <? 237)%N then L3 128 191
  else if (n =? 237)%N then L3 128 159
  else if (n <? 240)%N then L3 128 191
  else if (n =? 240)%N then L4 144 191
  else if (n <? 244)%N then L4 128 191
  else if (n =? 244)%N then L4 128 143
  else LX.

(** U+FFFD, the replacement rune, in UTF-8. *)
Definition runeError : string :=
  String (ascii_of_N 239) (String (ascii_of_N 191) (String (ascii_of_N 189) "")).

(** [strings.ToValidUTF8] with U+FFFD, byte by byte: a well-formed encoding is
    kept, every byte that starts none is replaced by U+FFFD. It is what the
    JSON encoder does to a string it writes and what the decoder does to a
    string literal it reads. *)
Fixpoint toValidUTF8 (s : string) : string :=
  match s with
  | EmptyString => EmptyString
  | String c0 s1 =>
      match lead c0 with
      | L1 => String c0 (toValidUTF8 s1)
      | L2 =>
          match s1 with
          | String c1 s2 =>
              if cont c1 then String c0 (String c1 (toValidUTF8 s2))
              else runeError ++ toValidUTF8 s1
          | EmptyString => runeError
          end
      | L3 lo hi =>
          match s1 with
          | String c1 (String c2 s3) =>
              if between lo hi c1 && cont c2
              then String c0 (String c1 (String c2 (toValidUTF8 s3)))
              else runeError ++ toValidUTF8 s1
          | _ => runeError ++ toValidUTF8 s1
          end
      | L4 lo hi =>
          match s1 with
          | String c1 (String c2 (String c3 s4)) =>
              if between lo hi c1 && cont c2 && cont c3
              then String c0 (String c1 (String c2 (String c3 (toValidUTF8 s4))))
              else runeError ++ toValidUTF8 s1
          | _ => runeError ++ toValidUTF8 s1
          end
      | LX => runeError ++ toValidUTF8 s1
      end
  end.

(** [utf8.ValidString]. *)
Definition valid (s : string) : bool := String.eqb (toValidUTF8 s) s.

End UTF8.

(** ** JSON values and the byte strings of the ledger *)

#[warnings="-register-all"]
Inductive json :=
| JNull
| JBool (b : bool)
| JNum (f : float)
| JStr (s : string)
| JArr (l : list json)
| JObj (members : list (string * json)).

(** A value of Go type [[]byte] as the contract sees it. [Nil] is the nil
    slice, the only zero-length value the stub hands out; [Encoded v] stands
    for the bytes of a JSON text with value [v] (members in the order of the
    text, string literals with their escapes resolved, number literals by the
    float64 nearest to them, infinite when out of range); [NotJSON n] is the
    [n]-th of the non-empty byte strings that are no JSON text. *)
Inductive bytes :=
| Nil
| NotJSON (n : nat)
| Encoded (v : json).

(** ** Errors *)

Inductive json_error :=
| UnsupportedValueError (f : float)
| UnmarshalTypeError (field : string)
| SyntaxError.

(** Go's [error] values met by the contract: one handed back by the stub
    (with its message), one of [encoding/json], one built by [fmt.Errorf]
    from strings (with the formatted message), or one built by [fmt.Errorf]
    with a final [%v] for another error (the text before it and that error).
    [nil] is [None] of [option error]. *)
Inductive error :=
| StubError (msg : string)
| JSONError (e : json_error)
| Errorf (msg : string)
| ErrorfV (msg : string) (cause : error).

(** ** The Asset record *)

(** The struct, fields in the order of the declaration. *)
Record Asset := mkAsset {
  BALANCE : float;
  DEALERID : string;
  ID : string;
  MPIN : string;
  MSISDN : string;
  REMARKS : string;
  STATUS : string;
  TRANSAMOUNT : float;
  TRANSTYPE : string
}.

(** [var asset Asset]. *)
Definition zeroAsset : Asset := mkAsset 0%float "" "" "" "" "" "" 0%float "".

(** The fields with their Go names and JSON tags, in declaration order. *)
Inductive field :=
| F_BALANCE | F_DEALERID | F_ID | F_MPIN | F_MSISDN
| F_REMARKS | F_STATUS | F_TRANSAMOUNT | F_TRANSTYPE.

Definition fields : list field :=
  [F_BALANCE; F_DEALERID; F_ID; F_MPIN; F_MSISDN;
   F_REMARKS; F_STATUS; F_TRANSAMOUNT; F_TRANSTYPE].


Definition json_tag (f : field) : string :=
  match f with
  | F_BALANCE => "balance" | F_DEALERID => "dealerid" | F_ID => "ID"
  | F_MPIN => "mpin" | F_MSISDN => "msisdn" | F_REMARKS => "remarks"
  | F_STATUS => "status" | F_TRANSAMOUNT => "transamount"
  | F_TRANSTYPE => "transtype"
  end.

Definition with_BALANCE (x : float) (a : Asset) : Asset :=
  mkAsset x (DEALERID a) (ID a) (MPIN a) (MSISDN a) (REMARKS a) (STATUS a)
    (TRANSAMOUNT a) (TRANSTYPE a).
Definition with_DEALERID (s : string) (a : Asset) : Asset :=
  mkAsset (BALANCE a) s (ID a) (MPIN a) (MSISDN a) (REMARKS a) (STATUS a)
    (TRANSAMOUNT a) (TRANSTYPE a).
Definition with_ID (s : string) (a : Asset) : Asset :=
  mkAsset (BALANCE a) (DEALERID a) s (MPIN a) (MSISDN a) (REMARKS a) (STATUS a)
    (TRANSAMOUNT a) (TRANSTYPE a).
Definition with_MPIN (s : string) (a : Asset) : Asset :=
  mkAsset (BALANCE a) (DEALERID a) (ID a) s (MSISDN a) (REMARKS a) (STATUS a)
    (TRANSAMOUNT a) (TRANSTYPE a).
Definition with_MSISDN (s : string) (a : Asset) : Asset :=
  mkAsset (BALANCE a) (DEALERID a) (ID a) (MPIN a) s (REMARKS a) (STATUS a)
    (TRANSAMOUNT a) (TRANSTYPE a).
Definition with_REMARKS (s : string) (a : Asset) : Asset :=
  mkAsset (BALANCE a) (DEALERID a) (ID a) (MPIN a) (MSISDN a) s (STATUS a)
    (TRANSAMOUNT a) (TRANSTYPE a).
Definition with_STATUS (s : string) (a : Asset) : Asset :=
  mkAsset (BALANCE a) (DEALERID a) (ID a) (MPIN a) (MSISDN a) (REMARKS a) s
    (TRANSAMOUNT a) (TRANSTYPE a).
Definition with_TRANSAMOUNT (x : float) (a : Asset) : Asset :=
  mkAsset (BALANCE a) (DEALERID a) (ID a) (MPIN a) (MSISDN a) (REMARKS a)
    (STATUS a) x (TRANSTYPE a).
Definition with_TRANSTYPE (s : string) (a : Asset) : Asset :=
  mkAsset (BALANCE a) (DEALERID a) (ID a) (MPIN a) (MSISDN a) (REMARKS a)
    (STATUS a) (TRANSAMOUNT a) s.

(** ** encoding/json on Asset *)

Module JSON.

(** A float64 is written as a JSON number; NaN and the infinities are
    refused with an [UnsupportedValueError]. *)
Definition encode_float (x : float) : json + json_error :=
  if is_finite x then inl (JNum x) else inr (UnsupportedValueError x).

(** A string is written as a JSON string, coerced to valid UTF-8. *)
Definition encode_string (s : string) : json + json_error :=
  inl (JStr (UTF8.toValidUTF8 s)).

Definition encode_field (f : field) (a : Asset) : json + json_error :=
  match f with
  | F_BALANCE => encode_float (BALANCE a)
  | F_DEALERID => encode_string (DEALERID a)
  | F_ID => encode_string (ID a)
  | F_MPIN => encode_string (MPIN a)
  | F_MSISDN => encode_string (MSISDN a)
  | F_REMARKS => encode_string (REMARKS a)
  | F_STATUS => encode_string (STATUS a)
  | F_TRANSAMOUNT => encode_float (TRANSAMOUNT a)
  | F_TRANSTYPE => encode_string (TRANSTYPE a)
  end.

(** The struct encoder: the fields one after the other, in the order of
    the declaration, each under its tag; the first value that cannot be
    written aborts the encoding. *)
Fixpoint encode_struct (fs : list field) (a : Asset)
  : list (string * json) + json_error :=
  match fs with
  | [] => inl []
  | f :: fs' =>
      match encode_field f a with
      | inr e => inr e
      | inl v =>
          match encode_struct fs' a with
          | inr e => inr e
          | inl ms => inl ((json_tag f, v) :: ms)
          end
      end
  end.

(** [json.Marshal(asset)]: the bytes and the error. *)
Definition Marshal (a : Asset) : bytes * option error :=
  match encode_struct fields a with
  | inl ms => (Encoded (JObj ms), None)
  | inr e => (Nil, Some (JSONError e))
  end.

(** Case folding of an object key as the decoder does it to find a field:
    ASCII letters to upper case, and the two runes whose simple fold is an
    ASCII letter, U+017F (long s) and U+212A (Kelvin sign), to that letter.
    The other runes outside ASCII are left as they are: folded or not, they
    equal nothing in a tag, and the tags are all ASCII. *)
Fixpoint foldName (s : string) : string :=
  match s with
  | EmptyString => EmptyString
  | String c s1 =>
      let n := N_of_ascii c in
      if ((97 <=? n) && (n <=? 122))%N
      then String (ascii_of_N (n - 32)) (foldName s1)
      else
        match s1 with
        | String c1 s2 =>
            if ((n =? 197) && (N_of_ascii c1 =? 191))%N
            then String "S" (foldName s2)
            else
              match s2 with
              | String c2 s3 =>
                  if ((n =? 226) && (N_of_ascii c1 =? 132)
                      && (N_of_ascii c2 =? 170))%N
                  then String "K" (foldName s3)
                  else String c (foldName s1)
              | EmptyString => String c (foldName s1)
              end
        | EmptyString => String c EmptyString
        end
  end.

(** The field an object key addresses: the one whose tag is the key, else
    the one whose tag equals it under case folding; none for a key the
    struct does not know. *)
Definition lookup_field (key : string) : option field :=
  match List.find (fun f => String.eqb (json_tag f) key) fields with
  | Some f => Some f
  | None =>
      List.find (fun f => String.eqb (foldName (json_tag f)) (foldName key))
        fields
  end.

(** Storing a JSON value into a field: [null] leaves the field as it is,
    a number goes into a float64 field unless it is out of range, a string
    into a string field (invalid UTF-8 replaced); [None] is an
    [UnmarshalTypeError]. *)
Definition set_field (f : field) (v : json) (a : Asset) : option Asset :=
  match v with
  | JNull => Some a
  | JNum x =>
      match f with
      | F_BALANCE => if is_finite x then Some (with_BALANCE x a) else None
      | F_TRANSAMOUNT =>
          if is_finite x then Some (with_TRANSAMOUNT x a) else None
      | _ => None
      end
  | JStr s =>
      let s := UTF8.toValidUTF8 s in
      match f with
      | F_DEALERID => Some (with_DEALERID s a)
      | F_ID => Some (with_ID s a)
      | F_MPIN => Some (with_MPIN s a)
      | F_MSISDN => Some (with_MSISDN s a)
      | F_REMARKS => Some (with_REMARKS s a)
      | F_STATUS => Some (with_STATUS s a)
      | F_TRANSTYPE => Some (with_TRANSTYPE s a)
      | _ => None
      end
  | _ => None
  end.

(** The object decoder: members in the order of the text, unknown keys
    skipped, a later member overriding an earlier one; a value of the wrong
    type is skipped and the first such error is kept for the end. *)
Fixpoint decode_members (ms : list (string * json)) (a : Asset)
    (saved : option error) : Asset * option error :=
  match ms with
  | [] => (a, saved)
  | (key, v) :: ms' =>
      match lookup_field key with
      | None => decode_members ms' a saved
      | Some f =>
          match set_field f v a with
          | Some a' => decode_members ms' a' saved
          | None =>
              decode_members ms' a
                (match saved with
                 | Some e => Some e
                 | None => Some (JSONError (UnmarshalTypeError (json_tag f)))
                 end)
          end
      end
  end.

(** [json.Unmarshal(data, &asset)]: the asset after the call and the
    error. *)
Definition Unmarshal (data : bytes) (a : Asset) : Asset * option error :=
  match data with
  | Nil | NotJSON _ => (a, Some (JSONError SyntaxError))
  | Encoded JNull => (a, None)
  | Encoded (JObj ms) => decode_members ms a None
  | Encoded _ => (a, Some (JSONError (UnmarshalTypeError "Asset")))
  end.

End JSON.

(** ** The ledger stub *)

(** The calls of [ChaincodeStubInterface] (and of the range iterator) the
    contract makes. *)
Inductive call :=
| CallGetState (key : string)
| CallPutState (key : string) (value : bytes)
| CallDelState (key : string)
| CallGetStateByRange (startKey endKey : string)
| CallNext.

(** The stub of one ledger: the world state, the number of calls served so
    far, and the fault oracle: [faults n c] is the error message with which
    the [n]-th call fails when it is [c], [None] when it is served. *)
Record ChaincodeStub := mkStub {
  world : gmap string bytes;
  served : nat;
  faults : nat -> call -> option string
}.

(** The stub after one more call. *)
Definition tick (stub : ChaincodeStub) : ChaincodeStub :=
  mkStub (world stub) (S (served stub)) (faults stub).

(** Code that talks to the stub: a state transformer over it. *)
Definition M (A : Type) : Type := ChaincodeStub -> A * ChaincodeStub.

Definition ret {A : Type} (a : A) : M A := fun stub => (a, stub).

Definition bind {A B : Type} (m : M A) (k : A -> M B) : M B :=
  fun stub => let (a, stub') := m stub in k a stub'.

Notation "'do' x <- m ; k" := (bind m (fun x => k))
  (at level 10, x name, m at level 100, k at level 200, only parsing).
Notation "'do' ' p <- m ; k" := (bind m (fun x => match x with p => k end))
  (at level 10, p pattern, m at level 100, k at level 200, only parsing).

Module Stub.

(** Every call is put to the oracle and counted. *)
Definition serve (c : call) : M (option string) :=
  fun stub => (faults stub (served stub) c, tick stub).

Definition modify (f : gmap string bytes -> gmap string bytes) : M unit :=
  fun stub => (tt, mkStub (f (world stub)) (served stub) (faults stub)).

(** [GetState(key)]: the value of the key, nil for a key without one. *)
Definition GetState (key : string) : M (bytes * option error) :=
  do fault <- serve (CallGetState key);
  match fault with
  | Some msg => ret (Nil, Some (StubError msg))
  | None => fun stub => ((default Nil (world stub !! key), None), stub)
  end.

(** [PutState(key, value)]: upsert. *)
Definition PutState (key : string) (value : bytes) : M (option error) :=
  do fault <- serve (CallPutState key value);
  match fault with
  | Some msg => ret (Some (StubError msg))
  | None => do _ <- modify (insert key value); ret None
  end.

(** [DelState(key)]: remove. *)
Definition DelState (key : string) : M (option error) :=
  do fault <- serve (CallDelState key);
  match fault with
  | Some msg => ret (Some (StubError msg))
  | None => do _ <- modify (delete key); ret None
  end.

(** A key lies in the range when it is not below [startKey] and is below
    [endKey]; an empty [endKey] is no bound (and so is an empty
    [startKey], below which no key lies). *)
Definition in_range (startKey endKey key : string) : bool :=
  String.leb startKey key
  && (String.eqb endKey "" || String.ltb key endKey).

Definition key_le (x y : string * bytes) : Prop := String.leb x.1 y.1.

(** [GetStateByRange(startKey, endKey)]: an iterator over the entries of
    the range in the lexical order of their keys, here the list of the
    entries still to come. *)
Definition GetStateByRange (startKey endKey : string)
  : M (list (string * bytes) * option error) :=
  do fault <- serve (CallGetStateByRange startKey endKey);
  match fault with
  | Some msg => ret ([], Some (StubError msg))
  | None =>
      fun stub =>
        ((merge_sort key_le
            (filter (fun kv => in_range startKey endKey kv.1)
               (map_to_list (world stub))), None), stub)
  end.

(** [resultsIterator.Next()] on an iterator that has a next entry. *)
Definition Next (kv : string * bytes) : M (bytes * option error) :=
  do fault <- serve CallNext;
  match fault with
  | Some msg => ret (Nil, Some (StubError msg))
  | None => ret (kv.2, None)
  end.

End Stub.

(** ** The contract *)

Module SmartContract.

Import Stub.

Definition is_nil (b : bytes) : bool :=
  match b with Nil => true | _ => false end.

(** The assets of [InitLedger]. *)
Definition assets : list Asset :=
  [ {| ID := "asset1"; DEALERID := "DEALER101"; MSISDN := "9877890123";
       MPIN := "1598"; BALANCE := 100000; STATUS := "ACTIVE";
       TRANSAMOUNT := 100000; TRANSTYPE := "CREDIT";
       REMARKS := "Personal loan disbursement" |};
    {| ID := "asset2"; DEALERID := "DEALER102"; MSISDN := "9811234567";
       MPIN := "4321"; BALANCE := 500; STATUS := "ACTIVE";
       TRANSAMOUNT := 500; TRANSTYPE := "INIT";
       REMARKS := "New account creation" |};
    {| ID := "asset3"; DEALERID := "DEALER103"; MSISDN := "9876543212";
       MPIN := "9012"; BALANCE := 1500; STATUS := "ACTIVE";
       TRANSAMOUNT := 200; TRANSTYPE := "DEBIT";
       REMARKS := "Purchase transaction" |};
    {| ID := "asset4"; DEALERID := "DEALER104"; MSISDN := "9822345678";
       MPIN := "8765"; BALANCE := 25000; STATUS := "ACTIVE";
       TRANSAMOUNT := 25000; TRANSTYPE := "CREDIT";
       REMARKS := "Business investment deposit" |};
    {| ID := "asset5"; DEALERID := "DEALER105"; MSISDN := "9844567890";
       MPIN := "1357"; BALANCE := 0; STATUS := "INACTIVE";
       TRANSAMOUNT := 0; TRANSTYPE := "SUSPEND";
       REMARKS := "Account dormant - no activity for 6 months" |};
    {| ID := "asset6"; DEALERID := "DEALER106"; MSISDN := "9866789012";
       MPIN := "3579"; BALANCE := 12000; STATUS := "ACTIVE";
       TRANSAMOUNT := 3000; TRANSTYPE := "DEBIT";
       REMARKS := "Electricity bill payment" |};
    {| ID := "asset7"; DEALERID := "DEALER107"; MSISDN := "9877890123";
       MPIN := "1598"; BALANCE := 100000; STATUS := "ACTIVE";
       TRANSAMOUNT := 100000; TRANSTYPE := "CREDIT";
       REMARKS := "Personal loan disbursement" |} ]%float.

(** The loop of [InitLedger] over the assets still to be written. *)
Fixpoint InitLedger_loop (todo : list Asset) : M (option error) :=
  match todo with
  | [] => ret None
  | asset :: todo' =>
      let '(assetJSON, err) := JSON.Marshal asset in
      match err with
      | Some e => ret (Some e)
      | None =>
          do err <- PutState (ID asset) assetJSON;
          match err with
          | Some e => ret (Some (ErrorfV "failed to put to world state: " e))
          | None => InitLedger_loop todo'
          end
      end
  end.

Definition InitLedger : M (option error) := InitLedger_loop assets.

Definition AssetExists (id : string) : M (bool * option error) :=
  do '(assetJSON, err) <- GetState id;
  match err with
  | Some e => ret (false, Some (ErrorfV "failed to read from world state: " e))
  | None => ret (negb (is_nil assetJSON), None)
  end.

Definition CreateAsset (id dealerID msisdn mpin : string) (balance : float)
    (status : string) (transAmount : float) (transType remarks : string)
  : M (option error) :=
  do '(exists_, err) <- AssetExists id;
  match err with
  | Some e => ret (Some e)
  | None =>
      if exists_ : bool
      then ret (Some (Errorf ("the asset " ++ id ++ " already exists")))
      else
        let asset :=
          {| ID := id; DEALERID := dealerID; MSISDN := msisdn; MPIN := mpin;
             BALANCE := balance; STATUS := status;
             TRANSAMOUNT := transAmount; TRANSTYPE := transType;
             REMARKS := remarks |} in
        let '(assetJSON, err) := JSON.Marshal asset in
        match err with
        | Some e => ret (Some e)
        | None => PutState id assetJSON
        end
  end.

(** The [*Asset] result is [None] for the nil pointer. *)
Definition ReadAsset (id : string) : M (option Asset * option error) :=
  do '(assetJSON, err) <- GetState id;
  match err with
  | Some e =>
      ret (None, Some (ErrorfV "failed to read from world state: " e))
  | None =>
      if is_nil assetJSON
      then ret (None, Some (Errorf ("the asset " ++ id ++ " does not exist")))
      else
        let '(asset, err) := JSON.Unmarshal assetJSON zeroAsset in
        match err with
        | Some e => ret (None, Some e)
        | None => ret (Some asset, None)
        end
  end.

Definition UpdateAsset (id dealerID msisdn mpin : string) (balance : float)
    (status : string) (transAmount : float) (transType remarks : string)
  : M (option error) :=
  do '(exists_, err) <- AssetExists id;
  match err with
  | Some e => ret (Some e)
  | None =>
      if negb exists_
      then ret (Some (Errorf ("the asset " ++ id ++ " does not exist")))
      else
        let asset :=
          {| ID := id; DEALERID := dealerID; MSISDN := msisdn; MPIN := mpin;
             BALANCE := balance; STATUS := status;
             TRANSAMOUNT := transAmount; TRANSTYPE := transType;
             REMARKS := remarks |} in
        let '(assetJSON, err) := JSON.Marshal asset in
        match err with
        | Some e => ret (Some e)
        | None => PutState id assetJSON
        end
  end.

Definition DeleteAsset (id : string) : M (option error) :=
  do '(exists_, err) <- AssetExists id;
  match err with
  | Some e => ret (Some e)
  | None =>
      if negb exists_
      then ret (Some (Errorf ("the asset " ++ id ++ " does not exist")))
      else DelState id
  end.

Definition TransferAsset (id newDealerID : string)
  : M (string * option error) :=
  do '(asset, err) <- ReadAsset id;
  match err, asset with
  | Some e, _ => ret ("", Some e)
  | None, None =>
      (* [asset.DEALERID] on a nil pointer: the run-time panic, which
         [ReadAsset] rules out (it returns nil only with an error) *)
      ret ("", Some (Errorf "invalid memory address or nil pointer dereference"))
  | None, Some asset =>
      let oldDealerID := DEALERID asset in
      let asset := with_DEALERID newDealerID asset in
      let '(assetJSON, err) := JSON.Marshal asset in
      match err with
      | Some e => ret ("", Some e)
      | None =>
          do err <- PutState id assetJSON;
          match err with
          | Some e => ret ("", Some e)
          | None => ret (oldDealerID, None)
          end
      end
  end.

(** The loop of [GetAllAssets]: [todo] are the entries the iterator still
    has, [assets] the slice built so far. *)
Fixpoint GetAllAssets_loop (todo : list (string * bytes))
    (assets : list Asset) : M (list Asset * option error) :=
  match todo with
  | [] => ret (assets, None)
  | kv :: todo' =>
      do '(value, err) <- Next kv;
      match err with
      | Some e => ret ([], Some e)
      | None =>
          let '(asset, err) := JSON.Unmarshal value zeroAsset in
          match err with
          | Some e => ret ([], Some e)
          | None => GetAllAssets_loop todo' (assets ++ [asset])
          end
      end
  end.

(** The deferred [resultsIterator.Close()] runs on every way out; the stub
    of this model keeps no account of open iterators, so it leaves no
    trace. *)
Definition GetAllAssets : M (list Asset * option error) :=
  do '(resultsIterator, err) <- GetStateByRange "" "";
  match err with
  | Some e => ret ([], Some e)
  | None => GetAllAssets_loop resultsIterator []
  end.

End SmartContract.

(** ** Notions the statements below are about *)

(** A record as it comes back from its wire form: the strings coerced to
    valid UTF-8, the numbers as they are. *)
Definition sanitize (a : Asset) : Asset :=
  mkAsset (BALANCE a) (UTF8.toValidUTF8 (DEALERID a)) (UTF8.toValidUTF8 (ID a))
    (UTF8.toValidUTF8 (MPIN a)) (UTF8.toValidUTF8 (MSISDN a))
    (UTF8.toValidUTF8 (REMARKS a)) (UTF8.toValidUTF8 (STATUS a))
    (TRANSAMOUNT a) (UTF8.toValidUTF8 (TRANSTYPE a)).

(** Well-formed field values: finite numbers and strings that are valid
    UTF-8. *)
Definition well_formed (a : Asset) : bool :=
  is_finite (BALANCE a) && is_finite (TRANSAMOUNT a)
  && UTF8.valid (DEALERID a) && UTF8.valid (ID a) && UTF8.valid (MPIN a)
  && UTF8.valid (MSISDN a) && UTF8.valid (REMARKS a)
  && UTF8.valid (STATUS a) && UTF8.valid (TRANSTYPE a).



(** The bytes [json.Marshal] gives for a record. *)
Definition encoded (a : Asset) : bytes := (JSON.Marshal a).1.
Arguments encoded : simpl never.

(** A stub whose oracle lets every call through. *)
Definition faultless (stub : ChaincodeStub) : Prop :=
  forall n c, faults stub n c = None.

(** [CreateAsset] and [UpdateAsset] with the nine arguments taken from a
    record. *)
Definition CreateAsset_of (a : Asset) : M (option error) :=
  SmartContract.CreateAsset (ID a) (DEALERID a) (MSISDN a) (MPIN a)
    (BALANCE a) (STATUS a) (TRANSAMOUNT a) (TRANSTYPE a) (REMARKS a).

Definition UpdateAsset_of (a : Asset) : M (option error) :=
  SmartContract.UpdateAsset (ID a) (DEALERID a) (MSISDN a) (MPIN a)
    (BALANCE a) (STATUS a) (TRANSAMOUNT a) (TRANSTYPE a) (REMARKS a).

(** A run of [CreateAsset] calls, one per record of the list, all of which
    succeed: the stub after the last one. *)
Fixpoint create_all (l : list Asset) (stub : ChaincodeStub)
  : option ChaincodeStub :=
  match l with
  | [] => Some stub
  | a :: l' =>
      match CreateAsset_of a stub with
      | (None, stub') => create_all l' stub'
      | (Some _, _) => None
      end
  end.

(** The transactions that write, and the stub each leaves behind (whatever
    it returns). *)
Inductive invocation :=
| Seed
| Create (a : Asset)
| Update (a : Asset)
| Delete (id : string)
| Transfer (id newDealerID : string).

Definition invoke (i : invocation) (stub : ChaincodeStub) : ChaincodeStub :=
  match i with
  | Seed => (SmartContract.InitLedger stub).2
  | Create a => (CreateAsset_of a stub).2
  | Update a => (UpdateAsset_of a stub).2
  | Delete id => (SmartContract.DeleteAsset id stub).2
  | Transfer id newDealerID =>
      (SmartContract.TransferAsset id newDealerID stub).2
  end.

(** The stubs reached from an empty world state. *)
Inductive reachable : ChaincodeStub -> Prop :=
| reachable_empty stub : world stub = ∅ -> reachable stub
| reachable_invoke stub i : reachable stub -> reachable (invoke i stub).

(** The record a stored value holds is the one [json.Unmarshal] decodes
    from it, as [ReadAsset] and [GetAllAssets] do. Every value of the world
    state holds a record whose ID is the key the value is stored under. *)
Definition key_is_id (w : gmap string bytes) : Prop :=
  forall key value, w !! key = Some value ->
    exists r, JSON.Unmarshal value zeroAsset = (r, None) /\ ID r = key.

(** The same up to the coercion of the encoder: every value holds a record
    whose ID is the key with its invalid UTF-8 replaced. *)
Definition key_coerced_is_id (w : gmap string bytes) : Prop :=
  forall key value, w !! key = Some value ->
    exists r,
      JSON.Unmarshal value zeroAsset = (r, None) /\
      ID r = UTF8.toValidUTF8 key.

(** The world state [InitLedger] leaves when it runs through. *)
Definition seeded (w : gmap string bytes) : gmap string bytes :=
  foldl (fun w a => <[ID a := encoded a]> w) w SmartContract.assets.

(** ** Example stubs *)

(** An empty ledger that serves every call. *)
Definition stub_empty : ChaincodeStub := mkStub ∅ 0 (fun _ _ => None).

(** The ledger after [InitLedger], serving every call. *)
Definition stub_seeded : ChaincodeStub := mkStub (seeded ∅) 0 (fun _ _ => None).

(** The ledger after [InitLedger], serving reads and refusing writes. *)
Definition stub_readonly : ChaincodeStub :=
  mkStub (seeded ∅) 0
    (fun _ c =>
       match c with
       | CallPutState _ _ | CallDelState _ => Some "ledger is read-only"
       | _ => None
       end).

(** A byte that starts no UTF-8 encoding, as a string. *)
Definition invalid_utf8 : string := String (ascii_of_N 255) "".

(** A record that is not among those of [InitLedger]. *)
Definition asset9 : Asset :=
  {| ID := "asset9"; DEALERID := "DEALER109"; MSISDN := "9812345678";
     MPIN := "2468"; BALANCE := 750; STATUS := "ACTIVE";
     TRANSAMOUNT := 250; TRANSTYPE := "CREDIT";
     REMARKS := "Salary advance" |}%float.

(** The third record of [InitLedger]. *)
Definition asset3_seed : Asset :=
  {| ID := "asset3"; DEALERID := "DEALER103"; MSISDN := "9876543212";
     MPIN := "9012"; BALANCE := 1500; STATUS := "ACTIVE";
     TRANSAMOUNT := 200; TRANSTYPE := "DEBIT";
     REMARKS := "Purchase transaction" |}%float.

(** [asset9] with a dealer that is not valid UTF-8. *)
Definition asset9_invalid : Asset := with_DEALERID invalid_utf8 asset9.

(** The ledger after [InitLedger] with the value of asset4 replaced by bytes
    that are no JSON text, serving every call. *)
Definition stub_corrupt : ChaincodeStub :=
  mkStub (<["asset4":=NotJSON 0]> (seeded ∅)) 0 (fun _ _ => None).

(** An empty ledger that fails the third call it gets. *)
Definition stub_third_put_fails : ChaincodeStub :=
  mkStub ∅ 0 (fun n _ => if Nat.eqb n 2 then Some "disk full" else None).

(** The ledger after [InitLedger] and a transfer of asset3. *)
Definition stub_transferred : ChaincodeStub :=
  (SmartContract.TransferAsset "asset3" "DEALER109" stub_seeded).2.

(** ** The start-up code of the chaincode server *)

(** What [main] of the chaincode server reads from the operating system:
    the environment, and the files, each path giving its contents or the
    message of the error with which reading it fails. *)
Record OS := mkOS {
  environ : gmap string string;
  files : string -> string + string
}.

(** A call that returns or panics (with the message of the panic). *)
Inductive outcome (A : Type) :=
| Returns (a : A)
| Panics (msg : string).
Arguments Returns {A} a.
Arguments Panics {A} msg.

(** [shim.TLSProperties]; a nil byte slice is [None]. *)
Record TLSProperties := mkTLSProperties {
  Disabled : bool;
  Key : option string;
  Cert : option string;
  ClientCACerts : option string
}.

(** The error of [strconv.ParseBool]: a [NumError] with [ErrSyntax] for the
    string that was not understood. *)
Inductive num_error :=
| ErrSyntax (func str : string).

Module Server.

(** [os.LookupEnv] and [os.ReadFile]. *)
Definition LookupEnv (os : OS) (key : string) : string * bool :=
  match environ os !! key with
  | Some value => (value, true)
  | None => ("", false)
  end.

Definition ReadFile (os : OS) (name : string)
  : option string * option string :=
  match files os name with
  | inl contents => (Some contents, None)
  | inr msg => (None, Some msg)
  end.

(** [strconv.ParseBool]: the twelve spellings it accepts. *)
Definition ParseBool (str : string) : bool * option num_error :=
  if existsb (String.eqb str) ["1"; "t"; "T"; "TRUE"; "true"; "True"]
  then (true, None)
  else if existsb (String.eqb str) ["0"; "f"; "F"; "FALSE"; "false"; "False"]
  then (false, None)
  else (false, Some (ErrSyntax "ParseBool" str)).

Definition getEnvOrDefault (os : OS) (env defaultVal : string) : string :=
  let '(value, ok) := LookupEnv os env in
  if negb ok then defaultVal else value.

Definition getBoolOrDefault (value : string) (defaultVal : bool) : bool :=
  let '(parsed, err) := ParseBool value in
  match err with
  | Some _ => defaultVal
  | None => parsed
  end.

(** [log.Panicf("error while reading the crypto file: %s", err)]. *)
Definition crypto_panic {A : Type} (msg : string) : outcome A :=
  Panics ("error while reading the crypto file: " ++ msg).

Definition getTLSProperties (os : OS) : outcome TLSProperties :=
  let tlsDisabledStr := getEnvOrDefault os "CHAINCODE_TLS_DISABLED" "true" in
  let key := getEnvOrDefault os "CHAINCODE_TLS_KEY" "" in
  let cert := getEnvOrDefault os "CHAINCODE_TLS_CERT" "" in
  let clientCACert := getEnvOrDefault os "CHAINCODE_CLIENT_CA_CERT" "" in
  let tlsDisabled := getBoolOrDefault tlsDisabledStr false in
  let read_client_ca (keyBytes certBytes : option string) :=
    if negb (String.eqb clientCACert "")
    then
      let '(clientCACertBytes, err) := ReadFile os clientCACert in
      match err with
      | Some e => crypto_panic e
      | None =>
          Returns (mkTLSProperties tlsDisabled keyBytes certBytes
                     clientCACertBytes)
      end
    else Returns (mkTLSProperties tlsDisabled keyBytes certBytes None) in
  if negb tlsDisabled
  then
    let '(keyBytes, err) := ReadFile os key in
    match err with
    | Some e => crypto_panic e
    | None =>
        let '(certBytes, err) := ReadFile os cert in
        match err with
        | Some e => crypto_panic e
        | None => read_client_ca keyBytes certBytes
        end
    end
  else read_client_ca None None.

End Server.

(** The spellings [ParseBool] takes for true. *)
Definition true_spellings : list string :=
  ["1"; "t"; "T"; "TRUE"; "true"; "True"].

(** CHAINCODE_TLS_DISABLED is not set, or is set to a spelling of true. *)
Definition tls_switched_off (os : OS) : Prop :=
  environ os !! "CHAINCODE_TLS_DISABLED" = None \/
  exists value,
    environ os !! "CHAINCODE_TLS_DISABLED" = Some value /\
    In value true_spellings.

(** An environment without the TLS variables and no files at all. *)
Definition os_bare : OS := mkOS ∅ (fun _ => inr "no such file or directory").

(** As [os_bare], with CHAINCODE_TLS_DISABLED set to the empty string. *)
Definition os_empty_flag : OS :=
  mkOS (<["CHAINCODE_TLS_DISABLED":=""]> ∅) (files os_bare).

(** TLS switched on by a value [ParseBool] does not understand, the key and
    the certificate in two files. *)
Definition os_tls : OS :=
  mkOS (<["CHAINCODE_TLS_DISABLED":="no"]>
          (<["CHAINCODE_TLS_KEY":="/tls/key.pem"]>
             (<["CHAINCODE_TLS_CERT":="/tls/cert.pem"]> ∅)))
       (fun name =>
          if String.eqb name "/tls/key.pem" then inl "KEY"
          else if String.eqb name "/tls/cert.pem" then inl "CERT"
          else inr "no such file or directory").

(** * Facts *)

(** ** UTF-8 coercion *)

Section UTF8_facts.
Import UTF8.

Lemma toValidUTF8_runeError (t : string) :
  toValidUTF8 (runeError ++ t) = runeError ++ toValidUTF8 t.
Proof. reflexivity. Qed.

(** Coercing twice is coercing once: what the coercion writes is valid.
    By induction on a bound of the length, as an encoding takes up to four
    bytes at a time. *)
Lemma toValidUTF8_idempotent_below (n : nat) :
  forall s, String.length s < n ->
    toValidUTF8 (toValidUTF8 s) = toValidUTF8 s.
Proof.
  induction n as [|n IH]; intros s Hlen; [lia|].
  destruct s as [|c0 s1]; [reflexivity|].
  cbn [toValidUTF8].
  destruct (lead c0) eqn:Hlead.
  - cbn [toValidUTF8]. rewrite Hlead. f_equal. apply IH. cbn in Hlen. lia.
  - destruct s1 as [|c1 s2]; [reflexivity|].
    destruct (cont c1) eqn:Hc1.
    + cbn [toValidUTF8]. rewrite Hlead, Hc1. do 2 f_equal.
      apply IH. cbn in Hlen. lia.
    + rewrite toValidUTF8_runeError. f_equal.
      apply IH. cbn in Hlen |- *. lia.
  - destruct s1 as [|c1 [|c2 s3]];
      try (rewrite toValidUTF8_runeError; f_equal; apply IH;
           cbn in Hlen |- *; lia).
    destruct (between lo hi c1 && cont c2) eqn:Hc.
    + cbn [toValidUTF8]. rewrite Hlead, Hc. do 3 f_equal.
      apply IH. cbn in Hlen. lia.
    + rewrite toValidUTF8_runeError. f_equal.
      apply IH. cbn in Hlen |- *. lia.
  - destruct s1 as [|c1 [|c2 [|c3 s4]]];
      try (rewrite toValidUTF8_runeError; f_equal; apply IH;
           cbn in Hlen |- *; lia).
    destruct (between lo hi c1 && cont c2 && cont c3) eqn:Hc.
    + cbn [toValidUTF8]. rewrite Hlead, Hc. do 4 f_equal.
      apply IH. cbn in Hlen. lia.
    + rewrite toValidUTF8_runeError. f_equal.
      apply IH. cbn in Hlen |- *. lia.
  - rewrite toValidUTF8_runeError. f_equal. apply IH. cbn in Hlen. lia.
Qed.

Lemma toValidUTF8_idempotent (s : string) :
  toValidUTF8 (toValidUTF8 s) = toValidUTF8 s.
Proof. apply (toValidUTF8_idempotent_below (S (String.length s))). lia. Qed.

Lemma valid_spec (s : string) : valid s = true <-> toValidUTF8 s = s.
Proof. unfold valid. apply String.eqb_eq. Qed.

Lemma valid_toValidUTF8 (s : string) : valid (toValidUTF8 s) = true.
Proof. apply valid_spec, toValidUTF8_idempotent. Qed.

End UTF8_facts.

(** ** Records and their wire form *)

Section JSON_facts.
Import JSON.

Lemma well_formed_spec (a : Asset) :
  well_formed a = true <->
  is_finite (BALANCE a) = true /\ is_finite (TRANSAMOUNT a) = true /\
  sanitize a = a.
Proof.
  unfold well_formed, sanitize. rewrite !andb_true_iff, !valid_spec.
  destruct a as [b d i p m r s t y]; cbn. split.
  - intros [[[[[[[[? ?] ?] ?] ?] ?] ?] ?] ?]. repeat split; congruence.
  - intros (? & ? & [= ? ? ? ? ? ? ?]). repeat split; assumption.
Qed.

Lemma sanitize_idempotent (a : Asset) : sanitize (sanitize a) = sanitize a.
Proof.
  unfold sanitize; cbn. by rewrite !toValidUTF8_idempotent.
Qed.

Lemma well_formed_sanitize (a : Asset) :
  well_formed a = true -> sanitize a = a.
Proof. intros H. by apply well_formed_spec in H as (_ & _ & ?). Qed.

(** [Marshal] succeeds exactly on the records whose numbers are finite,
    and then writes the nine members. *)
Lemma Marshal_finite (a : Asset) :
  is_finite (BALANCE a) = true -> is_finite (TRANSAMOUNT a) = true ->
  Marshal a =
    (Encoded (JObj
       [ (json_tag F_BALANCE, JNum (BALANCE a));
         (json_tag F_DEALERID, JStr (UTF8.toValidUTF8 (DEALERID a)));
         (json_tag F_ID, JStr (UTF8.toValidUTF8 (ID a)));
         (json_tag F_MPIN, JStr (UTF8.toValidUTF8 (MPIN a)));
         (json_tag F_MSISDN, JStr (UTF8.toValidUTF8 (MSISDN a)));
         (json_tag F_REMARKS, JStr (UTF8.toValidUTF8 (REMARKS a)));
         (json_tag F_STATUS, JStr (UTF8.toValidUTF8 (STATUS a)));
         (json_tag F_TRANSAMOUNT, JNum (TRANSAMOUNT a));
         (json_tag F_TRANSTYPE, JStr (UTF8.toValidUTF8 (TRANSTYPE a))) ]),
     None).
Proof.
  intros Hb Ht. unfold Marshal, fields.
  cbn [encode_struct encode_field]. unfold encode_float, encode_string.
  by rewrite Hb, Ht.
Qed.

Lemma Marshal_not_finite (a : Asset) :
  is_finite (BALANCE a) && is_finite (TRANSAMOUNT a) = false ->
  exists x, Marshal a = (Nil, Some (JSONError (UnsupportedValueError x))).
Proof.
  intros H. unfold Marshal, fields.
  cbn [encode_struct encode_field]. unfold encode_float, encode_string.
  destruct (is_finite (BALANCE a)); [|by eexists].
  destruct (is_finite (TRANSAMOUNT a)); [discriminate|by eexists].
Qed.

Lemma Marshal_inv (a : Asset) (data : bytes) :
  Marshal a = (data, None) ->
  is_finite (BALANCE a) = true /\ is_finite (TRANSAMOUNT a) = true.
Proof.
  intros H.
  destruct (is_finite (BALANCE a) && is_finite (TRANSAMOUNT a)) eqn:Hf.
  - by apply andb_true_iff in Hf.
  - apply Marshal_not_finite in Hf as [x Hx]. congruence.
Qed.

Lemma Marshal_cases (a : Asset) :
  (exists ms, Marshal a = (Encoded (JObj ms), None)) \/
  (exists e, Marshal a = (Nil, Some e)).
Proof.
  destruct (is_finite (BALANCE a) && is_finite (TRANSAMOUNT a)) eqn:Hf.
  - apply andb_true_iff in Hf as [? ?]. left. eexists. by apply Marshal_finite.
  - right. apply Marshal_not_finite in Hf as [x Hx]. by eexists.
Qed.

Lemma lookup_field_tag (f : field) : lookup_field (json_tag f) = Some f.
Proof. by destruct f. Qed.

(** Reading back what [Marshal] wrote gives the record with its strings
    coerced, whatever the variable held before. *)
Lemma Unmarshal_Marshal (a a0 : Asset) (data : bytes) :
  Marshal a = (data, None) -> Unmarshal data a0 = (sanitize a, None).
Proof.
  intros H. destruct (Marshal_inv _ _ H) as [Hb Ht].
  replace data with (Marshal a).1 by (by rewrite H).
  rewrite (Marshal_finite _ Hb Ht). cbn [fst].
  unfold Unmarshal. cbn [decode_members]. rewrite !lookup_field_tag.
  cbn [set_field]. rewrite Hb, Ht.
  cbn. rewrite !toValidUTF8_idempotent. reflexivity.
Qed.

Lemma set_field_well_formed (f : field) (v : json) (a a' : Asset) :
  well_formed a = true -> set_field f v a = Some a' ->
  well_formed a' = true.
Proof.
  unfold well_formed. rewrite !andb_true_iff.
  intros [[[[[[[[? ?] ?] ?] ?] ?] ?] ?] ?] Hset.
  destruct v as [|b|x|s|l|ms], f; cbn in Hset;
    try destruct (is_finite x) eqn:Hx; try discriminate;
    injection Hset as <-; cbn;
    repeat split; first [assumption | apply valid_toValidUTF8].
Qed.

Lemma decode_members_well_formed ms :
  forall a saved a' err,
    well_formed a = true -> decode_members ms a saved = (a', err) ->
    well_formed a' = true.
Proof.
  induction ms as [|[key v] ms IH]; intros a saved a' err Ha H; cbn in H.
  - by injection H as <- _.
  - destruct (lookup_field key) as [f|]; [|by eapply IH].
    destruct (set_field f v a) as [a1|] eqn:Hset; [|by eapply IH].
    eapply IH; [|exact H]. by eapply set_field_well_formed.
Qed.

(** What [Unmarshal] leaves in a well-formed variable is well-formed:
    a decoded record has finite numbers and valid strings. *)
Lemma Unmarshal_well_formed (data : bytes) (a a' : Asset) err :
  well_formed a = true -> Unmarshal data a = (a', err) ->
  well_formed a' = true.
Proof.
  intros Ha H. destruct data as [|n|v]; cbn in H.
  - by injection H as <- _.
  - by injection H as <- _.
  - destruct v; try by injection H as <- _.
    by eapply decode_members_well_formed.
Qed.

Lemma well_formed_zeroAsset : well_formed zeroAsset = true.
Proof. reflexivity. Qed.

Lemma well_formed_with_DEALERID (s : string) (a : Asset) :
  well_formed a = true ->
  well_formed (with_DEALERID (UTF8.toValidUTF8 s) a) = true.
Proof.
  unfold well_formed. rewrite !andb_true_iff. cbn.
  intros [[[[[[[[? ?] ?] ?] ?] ?] ?] ?] ?].
  repeat split; first [assumption | apply valid_toValidUTF8].
Qed.

Lemma encoded_Marshal (a : Asset) (data : bytes) :
  Marshal a = (data, None) -> encoded a = data.
Proof. unfold encoded. by intros ->. Qed.

Lemma Marshal_not_Nil (a : Asset) : Marshal a <> (Nil, None).
Proof. destruct (Marshal_cases a) as [[ms H]|[e H]]; congruence. Qed.

End JSON_facts.

(** ** The stub and the single transactions *)

Section Contract_facts.
Import Stub SmartContract.

Lemma GetState_served key stub :
  faults stub (served stub) (CallGetState key) = None ->
  GetState key stub = ((default Nil (world stub !! key), None), tick stub).
Proof. intros H. unfold GetState, bind, serve. by rewrite H. Qed.

Lemma GetState_fault key stub msg :
  faults stub (served stub) (CallGetState key) = Some msg ->
  GetState key stub = ((Nil, Some (StubError msg)), tick stub).
Proof. intros H. unfold GetState, bind, serve. by rewrite H. Qed.

Lemma PutState_served key value stub :
  faults stub (served stub) (CallPutState key value) = None ->
  PutState key value stub =
    (None, mkStub (<[key:=value]> (world stub)) (S (served stub)) (faults stub)).
Proof. intros H. unfold PutState, bind, serve. by rewrite H. Qed.

Lemma PutState_fault key value stub msg :
  faults stub (served stub) (CallPutState key value) = Some msg ->
  PutState key value stub = (Some (StubError msg), tick stub).
Proof. intros H. unfold PutState, bind, serve. by rewrite H. Qed.

Lemma PutState_cases key value stub :
  (PutState key value stub).1 = None /\
    world (PutState key value stub).2 = <[key:=value]> (world stub) \/
  (PutState key value stub).1 <> None /\
    world (PutState key value stub).2 = world stub.
Proof.
  destruct (faults stub (served stub) (CallPutState key value)) eqn:H.
  - right. by rewrite (PutState_fault _ _ _ _ H).
  - left. by rewrite (PutState_served _ _ _ H).
Qed.

Lemma PutState_faults key value stub :
  faults (PutState key value stub).2 = faults stub.
Proof.
  unfold PutState, bind, serve.
  by destruct (faults stub (served stub) (CallPutState key value)).
Qed.

Lemma DelState_served key stub :
  faults stub (served stub) (CallDelState key) = None ->
  DelState key stub =
    (None, mkStub (delete key (world stub)) (S (served stub)) (faults stub)).
Proof. intros H. unfold DelState, bind, serve. by rewrite H. Qed.

Lemma DelState_faults key stub : faults (DelState key stub).2 = faults stub.
Proof.
  unfold DelState, bind, serve.
  by destruct (faults stub (served stub) (CallDelState key)).
Qed.

Lemma DelState_cases key stub :
  world (DelState key stub).2 = delete key (world stub) \/
  world (DelState key stub).2 = world stub.
Proof.
  unfold DelState, bind, serve.
  destruct (faults stub (served stub) (CallDelState key)); auto.
Qed.

(** [AssetExists] and [ReadAsset] make one call and write nothing. *)
Lemma AssetExists_served id stub :
  faults stub (served stub) (CallGetState id) = None ->
  AssetExists id stub =
    ((negb (is_nil (default Nil (world stub !! id))), None), tick stub).
Proof. intros H. unfold AssetExists, bind. by rewrite GetState_served. Qed.

Lemma AssetExists_fault id stub msg :
  faults stub (served stub) (CallGetState id) = Some msg ->
  AssetExists id stub =
    ((false,
      Some (ErrorfV "failed to read from world state: " (StubError msg))),
     tick stub).
Proof.
  intros H. unfold AssetExists, bind. by rewrite (GetState_fault _ _ msg).
Qed.

Lemma AssetExists_stub id stub : (AssetExists id stub).2 = tick stub.
Proof.
  destruct (faults stub (served stub) (CallGetState id)) eqn:H.
  - by rewrite (AssetExists_fault _ _ _ H).
  - by rewrite (AssetExists_served _ _ H).
Qed.

Lemma ReadAsset_served id stub :
  faults stub (served stub) (CallGetState id) = None ->
  ReadAsset id stub =
    (if is_nil (default Nil (world stub !! id))
     then (None, Some (Errorf ("the asset " ++ id ++ " does not exist")))
     else
       match JSON.Unmarshal (default Nil (world stub !! id)) zeroAsset with
       | (_, Some e) => (None, Some e)
       | (asset, None) => (Some asset, None)
       end,
     tick stub).
Proof.
  intros H. unfold ReadAsset, bind. rewrite GetState_served by done.
  destruct (is_nil _); [done|].
  by destruct (JSON.Unmarshal _ _) as [a [e|]].
Qed.

Lemma ReadAsset_fault id stub msg :
  faults stub (served stub) (CallGetState id) = Some msg ->
  ReadAsset id stub =
    ((None,
      Some (ErrorfV "failed to read from world state: " (StubError msg))),
     tick stub).
Proof.
  intros H. unfold ReadAsset, bind. by rewrite (GetState_fault _ _ msg).
Qed.

Lemma ReadAsset_stub id stub : (ReadAsset id stub).2 = tick stub.
Proof.
  destruct (faults stub (served stub) (CallGetState id)) eqn:H.
  - by rewrite (ReadAsset_fault _ _ _ H).
  - rewrite (ReadAsset_served _ _ H). done.
Qed.

(** [ReadAsset] returns the nil pointer exactly when it returns an
    error. *)
Lemma ReadAsset_nil id stub :
  (ReadAsset id stub).1.1 = None <-> (ReadAsset id stub).1.2 <> None.
Proof.
  destruct (faults stub (served stub) (CallGetState id)) eqn:H.
  - rewrite (ReadAsset_fault _ _ _ H). cbn. split; [discriminate|done].
  - rewrite (ReadAsset_served _ _ H). cbn.
    destruct (is_nil _); [split; [discriminate|done]|].
    destruct (JSON.Unmarshal _ _) as [a [e|]]; cbn;
      split; try discriminate; done.
Qed.

(** A record that was read is well-formed and is stored under the key. *)
Lemma ReadAsset_Some id stub a :
  (ReadAsset id stub).1 = (Some a, None) ->
  faults stub (served stub) (CallGetState id) = None /\
  JSON.Unmarshal (default Nil (world stub !! id)) zeroAsset = (a, None) /\
  well_formed a = true.
Proof.
  intros H.
  destruct (faults stub (served stub) (CallGetState id)) eqn:Hf.
  { rewrite (ReadAsset_fault _ _ _ Hf) in H. discriminate. }
  rewrite (ReadAsset_served _ _ Hf) in H. cbn in H.
  destruct (is_nil _); [discriminate|].
  destruct (JSON.Unmarshal _ _) as [a' [e|]] eqn:Hu; [discriminate|].
  injection H as ->. repeat split.
  eapply Unmarshal_well_formed; [|exact Hu]. reflexivity.
Qed.

Lemma faultless_tick stub : faultless stub -> faultless (tick stub).
Proof. done. Qed.

End Contract_facts.

Section Create_facts.
Import Stub SmartContract.

Lemma CreateAsset_absent id dealerID msisdn mpin balance status transAmount
    transType remarks stub data :
  faults stub (served stub) (CallGetState id) = None ->
  default Nil (world stub !! id) = Nil ->
  JSON.Marshal
    (mkAsset balance dealerID id mpin msisdn remarks status transAmount
       transType) = (data, None) ->
  CreateAsset id dealerID msisdn mpin balance status transAmount transType
    remarks stub = PutState id data (tick stub).
Proof.
  intros Hf Habs Hm. unfold CreateAsset, bind.
  rewrite (AssetExists_served _ _ Hf), Habs. cbn. by rewrite Hm.
Qed.

Lemma CreateAsset_present id dealerID msisdn mpin balance status transAmount
    transType remarks stub :
  faults stub (served stub) (CallGetState id) = None ->
  is_nil (default Nil (world stub !! id)) = false ->
  CreateAsset id dealerID msisdn mpin balance status transAmount transType
    remarks stub =
    (Some (Errorf ("the asset " ++ id ++ " already exists")), tick stub).
Proof.
  intros Hf Hp. unfold CreateAsset, bind.
  by rewrite (AssetExists_served _ _ Hf), Hp.
Qed.

(** A successful [CreateAsset] found the key without a value, could
    serialize the record and wrote it under the key. *)
Lemma CreateAsset_success id dealerID msisdn mpin balance status transAmount
    transType remarks stub stub' :
  CreateAsset id dealerID msisdn mpin balance status transAmount transType
    remarks stub = (None, stub') ->
  exists data,
    default Nil (world stub !! id) = Nil /\
    JSON.Marshal
      (mkAsset balance dealerID id mpin msisdn remarks status transAmount
         transType) = (data, None) /\
    world stub' = <[id:=data]> (world stub) /\
    served stub' = S (S (served stub)) /\
    faults stub' = faults stub.
Proof.
  intros H. unfold CreateAsset, bind in H.
  destruct (faults stub (served stub) (CallGetState id)) eqn:Hf.
  { rewrite (AssetExists_fault _ _ _ Hf) in H. discriminate. }
  rewrite (AssetExists_served _ _ Hf) in H.
  destruct (default Nil (world stub !! id)) eqn:Hd; cbn [negb is_nil] in H;
    try discriminate.
  destruct (JSON.Marshal _) as [data [e|]] eqn:Hm; [discriminate|].
  exists data. split; [done|]. split; [done|].
  destruct (faults (tick stub) (served (tick stub)) (CallPutState id data))
    eqn:Hp.
  { rewrite (PutState_fault _ _ _ _ Hp) in H. discriminate. }
  rewrite (PutState_served _ _ _ Hp) in H. by injection H as <-.
Qed.

(** Whatever [CreateAsset] returns, the oracle stays and the world state
    is the old one or the old one with the record under the key. *)
Lemma CreateAsset_faults id dealerID msisdn mpin balance status transAmount
    transType remarks stub :
  faults (CreateAsset id dealerID msisdn mpin balance status transAmount
            transType remarks stub).2 = faults stub.
Proof.
  unfold CreateAsset, bind.
  destruct (AssetExists id stub) as [[b [e|]] s1] eqn:Ha;
    pose proof (AssetExists_stub id stub) as Hs; rewrite Ha in Hs;
    cbn in Hs; subst s1; [done|].
  destruct b; [done|].
  destruct (JSON.Marshal _) as [data [e|]]; [done|].
  by rewrite PutState_faults.
Qed.

End Create_facts.

(** ** C6 *)

(** C6. [AssetExists] returns true exactly when the key holds a value that
    is present and not empty; a key without a value gives false and no
    error; it returns an error exactly when the stub's read fails, and it
    writes nothing. *)
Theorem AssetExists_iff_present (id : string) (stub : ChaincodeStub) :
  match faults stub (served stub) (CallGetState id) with
  | None =>
      exists b : bool,
        (SmartContract.AssetExists id stub).1 = (b, None) /\
        (b = true <->
         exists value, world stub !! id = Some value /\ value <> Nil)
  | Some msg =>
      (SmartContract.AssetExists id stub).1 =
        (false,
         Some (ErrorfV "failed to read from world state: " (StubError msg)))
  end /\
  world (SmartContract.AssetExists id stub).2 = world stub.
Proof.
  split; [|by rewrite AssetExists_stub].
  destruct (faults stub (served stub) (CallGetState id)) as [msg|] eqn:Hf.
  - by rewrite (AssetExists_fault _ _ _ Hf).
  - rewrite (AssetExists_served _ _ Hf). eexists. split; [reflexivity|].
    destruct (world stub !! id) as [[|n|v]|] eqn:Hw; cbn; split;
      try discriminate; try (intros (value & [= <-] & Hne); done);
      try (intros (value & [=] & _)); intros _; eexists; split; done.
Qed.

(** ** C5 *)

(** C5. On a key without a value [UpdateAsset] fails and writes nothing;
    the error is the not-found error unless the stub's read failed. *)
Theorem UpdateAsset_absent (a : Asset) (stub : ChaincodeStub) :
  world stub !! ID a = None ->
  (UpdateAsset_of a stub).1 <> None /\
  world (UpdateAsset_of a stub).2 = world stub /\
  (faults stub (served stub) (CallGetState (ID a)) = None ->
   (UpdateAsset_of a stub).1 =
     Some (Errorf ("the asset " ++ ID a ++ " does not exist"))).
Proof.
  intros Habs. unfold UpdateAsset_of, SmartContract.UpdateAsset, bind.
  destruct (faults stub (served stub) (CallGetState (ID a))) as [msg|] eqn:Hf.
  - rewrite (AssetExists_fault _ _ _ Hf). cbn. by repeat split.
  - rewrite (AssetExists_served _ _ Hf), Habs. cbn. by repeat split.
Qed.

Lemma UpdateAsset_absent_witness :
  (UpdateAsset_of asset9 stub_seeded).1 =
    Some (Errorf "the asset asset9 does not exist") /\
  world (UpdateAsset_of asset9 stub_seeded).2 = world stub_seeded.
Proof.
  assert (Habs : world stub_seeded !! ID asset9 = None) by reflexivity.
  destruct (UpdateAsset_absent asset9 stub_seeded Habs) as (_ & Hw & He).
  split; [apply He; reflexivity | exact Hw].
Defined.

Section Create_of_facts.
Import Stub SmartContract.

Lemma Asset_eta (a : Asset) :
  mkAsset (BALANCE a) (DEALERID a) (ID a) (MPIN a) (MSISDN a) (REMARKS a)
    (STATUS a) (TRANSAMOUNT a) (TRANSTYPE a) = a.
Proof. by destruct a. Qed.

Lemma CreateAsset_of_success a stub stub' :
  CreateAsset_of a stub = (None, stub') ->
  default Nil (world stub !! ID a) = Nil /\
  JSON.Marshal a = (encoded a, None) /\
  world stub' = <[ID a:=encoded a]> (world stub) /\
  served stub' = S (S (served stub)) /\
  faults stub' = faults stub.
Proof.
  intros H. apply CreateAsset_success in H as (data & ? & Hm & ? & ? & ?).
  rewrite Asset_eta in Hm. rewrite (encoded_Marshal _ _ Hm). done.
Qed.

Lemma CreateAsset_of_absent a stub :
  faults stub (served stub) (CallGetState (ID a)) = None ->
  default Nil (world stub !! ID a) = Nil ->
  JSON.Marshal a = (encoded a, None) ->
  CreateAsset_of a stub = PutState (ID a) (encoded a) (tick stub).
Proof.
  intros Hf Habs Hm. apply CreateAsset_absent; [done..|].
  by rewrite Asset_eta.
Qed.

Lemma Marshal_well_formed a :
  well_formed a = true -> JSON.Marshal a = (encoded a, None).
Proof.
  intros (Hb & Ht & _)%well_formed_spec. unfold encoded.
  by rewrite (Marshal_finite _ Hb Ht).
Qed.

Lemma is_nil_encoded a data :
  JSON.Marshal a = (data, None) -> is_nil data = false.
Proof.
  intros H. destruct (Marshal_cases a) as [[ms Hm]|[e Hm]];
    rewrite Hm in H; by injection H as <-.
Qed.

(** Reading a key right after a record was put under it. *)
Lemma ReadAsset_put a key stub :
  JSON.Marshal a = (encoded a, None) ->
  faults stub (S (served stub)) (CallGetState key) = None ->
  (ReadAsset key
     (mkStub (<[key:=encoded a]> (world stub)) (S (served stub))
        (faults stub))).1 = (Some (sanitize a), None).
Proof.
  intros Hm Hf. rewrite ReadAsset_served by done. cbn [world fst].
  rewrite lookup_insert_eq. cbn [from_option id].
  rewrite (is_nil_encoded _ _ Hm).
  by rewrite (Unmarshal_Marshal a zeroAsset _ Hm).
Qed.

End Create_of_facts.

(** ** C2 *)

(** C2, as amended. On a stub that serves every call, for a key without a
    value and arguments that are well-formed (finite numbers, strings that
    are valid UTF-8), [CreateAsset] succeeds and the [ReadAsset] that follows
    returns the record of exactly the nine arguments. *)
Theorem CreateAsset_then_ReadAsset (a : Asset) (stub : ChaincodeStub) :
  faultless stub ->
  world stub !! ID a = None ->
  well_formed a = true ->
  (CreateAsset_of a stub).1 = None /\
  (SmartContract.ReadAsset (ID a) (CreateAsset_of a stub).2).1
    = (Some a, None).
Proof.
  intros Hf Habs Hwf.
  pose proof (Marshal_well_formed a Hwf) as Hm.
  rewrite CreateAsset_of_absent; [|apply Hf|by rewrite Habs|done].
  rewrite PutState_served by apply Hf. split; [done|].
  cbn [snd]. change (S (served (tick stub))) with (S (S (served stub))).
  pose proof (ReadAsset_put a (ID a) (tick stub) Hm (Hf _ _)) as Hr.
  cbn [tick world served faults] in Hr |- *.
  rewrite Hr. by rewrite (well_formed_sanitize a Hwf).
Qed.

Lemma CreateAsset_then_ReadAsset_witness :
  (CreateAsset_of asset9 stub_seeded).1 = None /\
  (SmartContract.ReadAsset "asset9" (CreateAsset_of asset9 stub_seeded).2).1
    = (Some asset9, None).
Proof.
  apply (CreateAsset_then_ReadAsset asset9 stub_seeded).
  - intros n c. reflexivity.
  - reflexivity.
  - reflexivity.
Defined.

(** C2, as stated, fails: with a balance that is not a number the record
    cannot be serialized and [CreateAsset] returns the encoder's error; with
    a dealer that is not valid UTF-8 [CreateAsset] succeeds and the record
    read back has another dealer than the one passed. *)
Lemma CreateAsset_then_ReadAsset_counterexample :
  (world stub_empty !! "asset9" = None /\
   (SmartContract.CreateAsset "asset9" "DEALER109" "9812345678" "2468" nan
      "ACTIVE" 250 "CREDIT" "Salary advance" stub_empty).1
     = Some (JSONError (UnsupportedValueError nan))) /\
  ((SmartContract.CreateAsset "asset9" invalid_utf8 "9812345678" "2468" 750
      "ACTIVE" 250 "CREDIT" "Salary advance" stub_empty).1 = None /\
   option_map DEALERID
     (SmartContract.ReadAsset "asset9"
        (SmartContract.CreateAsset "asset9" invalid_utf8 "9812345678" "2468"
           750 "ACTIVE" 250 "CREDIT" "Salary advance" stub_empty).2).1.1
     = Some UTF8.runeError /\
   UTF8.runeError <> invalid_utf8).
Proof. repeat split; try reflexivity. discriminate. Qed.

(** ** C4 *)

(** C4, as amended. On a stub that serves every call, for a key without a
    value and arguments whose two numbers are finite, [CreateAsset]
    succeeds, and a second [CreateAsset] with the same id (and any other
    arguments) fails with the already-exists error and writes nothing: the
    world state after both calls is the one the first call left, with the
    record of the first call under the id. *)
Theorem CreateAsset_twice (a a' : Asset) (stub : ChaincodeStub) :
  faultless stub ->
  world stub !! ID a = None ->
  is_finite (BALANCE a) = true ->
  is_finite (TRANSAMOUNT a) = true ->
  ID a' = ID a ->
  (CreateAsset_of a stub).1 = None /\
  world (CreateAsset_of a stub).2 = <[ID a:=encoded a]> (world stub) /\
  (CreateAsset_of a' (CreateAsset_of a stub).2).1
    = Some (Errorf ("the asset " ++ ID a ++ " already exists")) /\
  world (CreateAsset_of a' (CreateAsset_of a stub).2).2
    = world (CreateAsset_of a stub).2 /\
  world (CreateAsset_of a' (CreateAsset_of a stub).2).2 !! ID a
    = Some (encoded a) /\
  JSON.Unmarshal (encoded a) zeroAsset = (sanitize a, None).
Proof.
  intros Hf Habs Hb Ht Hid.
  assert (Hm : JSON.Marshal a = (encoded a, None)).
  { unfold encoded. by rewrite (Marshal_finite _ Hb Ht). }
  assert (Hd : default Nil (world stub !! ID a) = Nil) by (by rewrite Habs).
  rewrite (CreateAsset_of_absent a stub (Hf _ _) Hd Hm).
  rewrite PutState_served by apply Hf. cbn [fst snd].
  unfold CreateAsset_of, SmartContract.CreateAsset, bind. rewrite Hid.
  rewrite AssetExists_served by apply Hf. cbn [world].
  rewrite lookup_insert_eq. cbn [from_option id].
  rewrite (is_nil_encoded _ _ Hm). cbn.
  repeat split; [apply lookup_insert_eq|by apply Unmarshal_Marshal].
Qed.

Lemma CreateAsset_twice_witness :
  (CreateAsset_of asset9 stub_seeded).1 = None /\
  (CreateAsset_of (with_BALANCE nan asset9)
     (CreateAsset_of asset9 stub_seeded).2).1
    = Some (Errorf "the asset asset9 already exists") /\
  world (CreateAsset_of (with_BALANCE nan asset9)
           (CreateAsset_of asset9 stub_seeded).2).2 !! "asset9"
    = Some (encoded asset9).
Proof.
  assert (Hf : faultless stub_seeded) by (intros n c; reflexivity).
  assert (Habs : world stub_seeded !! ID asset9 = None)
    by (vm_compute; reflexivity).
  destruct (CreateAsset_twice asset9 (with_BALANCE nan asset9) stub_seeded
              Hf Habs eq_refl eq_refl eq_refl)
    as (H1 & _ & H2 & _ & Hw & _).
  split; [exact H1|]. split; [exact H2|exact Hw].
Defined.

(** C4, as stated, fails for an argument tuple with a number that is not
    finite: on a key without a value the first [CreateAsset] fails with the
    error of [json.Marshal] and stores nothing, so the second call fails in
    the same way, not with the already-exists error, and no record is
    stored under the id after both. *)
Lemma CreateAsset_twice_counterexample :
  world stub_empty !! "asset9" = None /\
  (CreateAsset_of (with_BALANCE nan asset9) stub_empty).1
    = Some (JSONError (UnsupportedValueError nan)) /\
  (CreateAsset_of (with_BALANCE nan asset9)
     (CreateAsset_of (with_BALANCE nan asset9) stub_empty).2).1
    = Some (JSONError (UnsupportedValueError nan)) /\
  Some (JSONError (UnsupportedValueError nan))
    <> Some (Errorf "the asset asset9 already exists") /\
  world (CreateAsset_of (with_BALANCE nan asset9)
           (CreateAsset_of (with_BALANCE nan asset9) stub_empty).2).2
    !! "asset9" = None.
Proof. repeat split; try reflexivity. discriminate. Qed.

(** ** C3 and C10 *)

Section Transfer_facts.
Import Stub SmartContract.

Lemma sanitize_with_DEALERID s a :
  sanitize (with_DEALERID s a)
  = with_DEALERID (UTF8.toValidUTF8 s) (sanitize a).
Proof. reflexivity. Qed.

Lemma well_formed_with_DEALERID_finite s a :
  well_formed a = true ->
  JSON.Marshal (with_DEALERID s a) = (encoded (with_DEALERID s a), None).
Proof.
  intros (Hb & Ht & _)%well_formed_spec. unfold encoded.
  by rewrite (Marshal_finite (with_DEALERID s a) Hb Ht).
Qed.

(** [TransferAsset] on a key whose record can be read: the record with the
    new dealer is put under the key. *)
Lemma TransferAsset_read id newDealerID stub a :
  (ReadAsset id stub).1 = (Some a, None) ->
  TransferAsset id newDealerID stub =
    match PutState id (encoded (with_DEALERID newDealerID a)) (tick stub) with
    | (Some e, stub') => (("", Some e), stub')
    | (None, stub') => ((DEALERID a, None), stub')
    end.
Proof.
  intros Hr. pose proof (ReadAsset_Some _ _ _ Hr) as (_ & _ & Hwf).
  unfold TransferAsset, bind.
  destruct (ReadAsset id stub) as [r s1] eqn:Hrd.
  pose proof (ReadAsset_stub id stub) as Hs. rewrite Hrd in Hs.
  cbn in Hr, Hs. subst r s1.
  rewrite (well_formed_with_DEALERID_finite newDealerID a Hwf).
  by destruct (PutState _ _ _) as [[e|] s2].
Qed.

End Transfer_facts.

(** C3, as amended. On a stub that serves every call and a key whose
    record [ReadAsset] returns, [TransferAsset] returns the dealer of that
    record, and the [ReadAsset] that follows returns that record with the
    dealer replaced by the new one, its invalid UTF-8 bytes replaced by
    U+FFFD (so by the new one itself when it is valid UTF-8), and the eight
    other fields as they were read before. *)
Theorem TransferAsset_then_ReadAsset (id newDealerID : string)
    (stub : ChaincodeStub) (a : Asset) :
  faultless stub ->
  (SmartContract.ReadAsset id stub).1 = (Some a, None) ->
  (SmartContract.TransferAsset id newDealerID stub).1 = (DEALERID a, None) /\
  (SmartContract.ReadAsset id
     (SmartContract.TransferAsset id newDealerID stub).2).1
    = (Some (with_DEALERID (UTF8.toValidUTF8 newDealerID) a), None) /\
  (UTF8.valid newDealerID = true ->
   (SmartContract.ReadAsset id
      (SmartContract.TransferAsset id newDealerID stub).2).1
     = (Some (with_DEALERID newDealerID a), None)).
Proof.
  intros Hf Hr. pose proof (ReadAsset_Some _ _ _ Hr) as (_ & _ & Hwf).
  rewrite (TransferAsset_read _ newDealerID _ _ Hr).
  rewrite PutState_served by apply Hf. split; [done|].
  pose proof (ReadAsset_put (with_DEALERID newDealerID a) id (tick stub)
                (well_formed_with_DEALERID_finite newDealerID a Hwf)
                (Hf _ _)) as Hp.
  cbn [tick world served faults snd] in Hp |- *.
  rewrite Hp, sanitize_with_DEALERID, (well_formed_sanitize a Hwf).
  split; [done|]. by intros ->%valid_spec.
Qed.

Lemma TransferAsset_then_ReadAsset_witness :
  (SmartContract.TransferAsset "asset3" "DEALER109" stub_seeded).1
    = ("DEALER103", None) /\
  option_map DEALERID
    (SmartContract.ReadAsset "asset3"
       (SmartContract.TransferAsset "asset3" "DEALER109" stub_seeded).2).1.1
    = Some "DEALER109".
Proof.
  assert (Hf : faultless stub_seeded) by (intros n c; reflexivity).
  destruct (TransferAsset_then_ReadAsset "asset3" "DEALER109" stub_seeded
              asset3_seed Hf eq_refl)
    as (Ht & Hr & _).
  split; [exact Ht | by rewrite Hr].
Defined.

(** C3, as stated, fails for a new dealer that is not valid UTF-8: the
    transfer succeeds and the record read afterwards has U+FFFD for the
    dealer. *)
Lemma TransferAsset_then_ReadAsset_counterexample :
  (SmartContract.TransferAsset "asset3" invalid_utf8 stub_seeded).1
    = ("DEALER103", None) /\
  option_map DEALERID
    (SmartContract.ReadAsset "asset3"
       (SmartContract.TransferAsset "asset3" invalid_utf8 stub_seeded).2).1.1
    = Some UTF8.runeError /\
  UTF8.runeError <> invalid_utf8.
Proof. repeat split; try reflexivity. discriminate. Qed.

(** C10. Whenever [TransferAsset] returns an error, the string it returns
    with it is empty: when the record cannot be read (no value under the key,
    bytes that do not decode, a read the stub fails), and as well when the
    record was read and its dealer is known but the write fails. *)
Theorem TransferAsset_error_string (id newDealerID : string)
    (stub : ChaincodeStub) (oldDealerID : string) (e : error) :
  (SmartContract.TransferAsset id newDealerID stub).1
    = (oldDealerID, Some e) ->
  oldDealerID = "".
Proof.
  unfold SmartContract.TransferAsset, bind.
  destruct (SmartContract.ReadAsset id stub) as [[[a|] [e'|]] s1];
    try (by intros [= <- _]).
  destruct (JSON.Marshal _) as [data [e'|]]; [by intros [= <- _]|].
  destruct (Stub.PutState _ _ _) as [[e'|] s2]; [by intros [= <- _]|].
  discriminate.
Qed.

Lemma TransferAsset_error_string_witness :
  (SmartContract.ReadAsset "asset3" stub_readonly).1
    = (Some asset3_seed, None) /\
  (SmartContract.TransferAsset "asset3" "DEALER109" stub_readonly).1.2
    = Some (StubError "ledger is read-only") /\
  (SmartContract.TransferAsset "asset3" "DEALER109" stub_readonly).1.1 = "".
Proof.
  split; [reflexivity|]. split; [reflexivity|].
  apply (TransferAsset_error_string "asset3" "DEALER109" stub_readonly _
           (StubError "ledger is read-only")).
  reflexivity.
Defined.

(** ** C8 *)

Section InitLedger_facts.
Import Stub SmartContract.

(** Writing records one after the other, each under its ID. *)
Lemma foldl_insert_notin (l : list Asset) :
  forall (w : gmap string bytes) key,
    key ∉ map ID l ->
    foldl (fun w a => <[ID a:=encoded a]> w) w l !! key = w !! key.
Proof.
  induction l as [|x l IH]; intros w key Hk; [done|].
  cbn [map] in Hk. apply not_elem_of_cons in Hk as [Hne Hk].
  cbn [foldl]. rewrite IH by done. by apply lookup_insert_ne.
Qed.

Lemma foldl_insert_in (l : list Asset) :
  forall (w : gmap string bytes) a,
    NoDup (map ID l) -> a ∈ l ->
    foldl (fun w a => <[ID a:=encoded a]> w) w l !! ID a = Some (encoded a).
Proof.
  induction l as [|x l IH]; intros w a Hnd Ha; [by apply elem_of_nil in Ha|].
  cbn [map] in Hnd. apply NoDup_cons in Hnd as [Hx Hnd].
  cbn [foldl]. apply elem_of_cons in Ha as [->|Ha].
  - rewrite foldl_insert_notin by done. apply lookup_insert_eq.
  - by apply IH.
Qed.

Lemma foldl_insert_id (l : list Asset) :
  forall w : gmap string bytes,
    (forall a, a ∈ l -> w !! ID a = Some (encoded a)) ->
    foldl (fun w a => <[ID a:=encoded a]> w) w l = w.
Proof.
  induction l as [|x l IH]; intros w Hw; [done|].
  cbn [foldl]. rewrite insert_id by (apply Hw; left).
  apply IH. intros a Ha. apply Hw. by right.
Qed.

(** However far the loop of [InitLedger] gets, it has written a prefix of
    its list, each record serialized and under its ID. *)
Lemma InitLedger_loop_prefix (todo : list Asset) :
  forall stub, exists k,
    world (InitLedger_loop todo stub).2
      = foldl (fun w a => <[ID a:=encoded a]> w) (world stub) (take k todo) /\
    (forall a, a ∈ take k todo -> JSON.Marshal a = (encoded a, None)) /\
    faults (InitLedger_loop todo stub).2 = faults stub.
Proof.
  induction todo as [|a todo IH]; intros stub.
  { exists 0. repeat split. intros a Ha. by apply elem_of_nil in Ha. }
  cbn [InitLedger_loop].
  destruct (JSON.Marshal a) as [data [e|]] eqn:Hm.
  { exists 0. repeat split. intros x Hx. by apply elem_of_nil in Hx. }
  unfold bind.
  destruct (faults stub (served stub) (CallPutState (ID a) data)) eqn:Hf.
  { rewrite (PutState_fault _ _ _ _ Hf). exists 0. repeat split.
    intros x Hx. by apply elem_of_nil in Hx. }
  rewrite (PutState_served _ _ _ Hf).
  destruct (IH (mkStub (<[ID a:=data]> (world stub)) (S (served stub))
                  (faults stub))) as (k & Hw & Hall & Hfl).
  exists (S k). rewrite firstn_cons. cbn [foldl world] in Hw |- *.
  rewrite (encoded_Marshal _ _ Hm).
  split; [exact Hw|]. split; [|exact Hfl].
  intros x [->|Hx]%elem_of_cons; [|by apply Hall].
  by rewrite (encoded_Marshal _ _ Hm).
Qed.

(** When it runs through, it has written the whole list. *)
Lemma InitLedger_loop_success (todo : list Asset) :
  forall stub stub',
    InitLedger_loop todo stub = (None, stub') ->
    world stub' = foldl (fun w a => <[ID a:=encoded a]> w) (world stub) todo.
Proof.
  induction todo as [|a todo IH]; intros stub stub' H.
  { by injection H as <-. }
  cbn [InitLedger_loop] in H. cbn [foldl].
  destruct (JSON.Marshal a) as [data [e|]] eqn:Hm; [discriminate|].
  rewrite (encoded_Marshal _ _ Hm).
  unfold bind in H.
  destruct (faults stub (served stub) (CallPutState (ID a) data)) eqn:Hf.
  { rewrite (PutState_fault _ _ _ _ Hf) in H. discriminate. }
  rewrite (PutState_served _ _ _ Hf) in H. by apply IH in H.
Qed.

Lemma NoDup_assets : NoDup (map ID assets).
Proof. apply (bool_decide_unpack _). by vm_compute. Qed.

(** On a stub that serves every call the loop runs through, given that
    its records serialize, as the seven of [InitLedger] do. *)
Lemma InitLedger_loop_faultless (todo : list Asset) :
  forall stub,
    faultless stub ->
    (forall a, a ∈ todo -> JSON.Marshal a = (encoded a, None)) ->
    (InitLedger_loop todo stub).1 = None.
Proof.
  induction todo as [|a todo IH]; intros stub Hf Hall; [done|].
  cbn [InitLedger_loop]. rewrite (Hall a ltac:(left)). unfold bind.
  rewrite PutState_served by apply Hf. apply IH; [exact Hf|].
  intros x Hx. apply Hall. by right.
Qed.

Lemma Marshal_assets :
  forall a, a ∈ assets -> JSON.Marshal a = (encoded a, None).
Proof.
  apply Forall_forall. unfold assets.
  repeat (apply Forall_cons; split; [reflexivity|]). apply Forall_nil_2.
Qed.

Lemma InitLedger_faultless (stub : ChaincodeStub) :
  faultless stub ->
  (InitLedger stub).1 = None /\ faultless (InitLedger stub).2 /\
  world (InitLedger stub).2
    = foldl (fun w a => <[ID a:=encoded a]> w) (world stub) assets.
Proof.
  intros Hf.
  pose proof (InitLedger_loop_faultless assets stub Hf Marshal_assets) as H1.
  destruct (InitLedger_loop_prefix assets stub) as (k & _ & _ & Hfl).
  unfold InitLedger.
  split; [exact H1|]. split; [intros n c; rewrite Hfl; apply Hf|].
  apply InitLedger_loop_success. rewrite <- H1. apply surjective_pairing.
Qed.

End InitLedger_facts.

(** C8. On a stub that serves every call, from any world state,
    [InitLedger] succeeds and leaves exactly its seven records, each under
    its ID, and every other key as it was; a second [InitLedger] after it
    succeeds as well and leaves the world state as the first one left
    it. *)
Theorem InitLedger_twice (stub : ChaincodeStub) :
  faultless stub ->
  (SmartContract.InitLedger stub).1 = None /\
  (forall a, a ∈ SmartContract.assets ->
     world (SmartContract.InitLedger stub).2 !! ID a = Some (encoded a)) /\
  (forall key, key ∉ map ID SmartContract.assets ->
     world (SmartContract.InitLedger stub).2 !! key = world stub !! key) /\
  (SmartContract.InitLedger (SmartContract.InitLedger stub).2).1 = None /\
  world (SmartContract.InitLedger (SmartContract.InitLedger stub).2).2
    = world (SmartContract.InitLedger stub).2.
Proof.
  intros Hf. destruct (InitLedger_faultless stub Hf) as (H1 & Hf1 & Hw1).
  destruct (InitLedger_faultless _ Hf1) as (H2 & _ & Hw2).
  assert (Hin : forall a, a ∈ SmartContract.assets ->
                  world (SmartContract.InitLedger stub).2 !! ID a
                  = Some (encoded a)).
  { intros a Ha. rewrite Hw1.
    by apply foldl_insert_in, Ha; apply NoDup_assets. }
  split; [exact H1|]. split; [exact Hin|]. split.
  - intros key Hk. rewrite Hw1. by apply foldl_insert_notin.
  - split; [exact H2|]. rewrite Hw2. by apply foldl_insert_id.
Qed.

Lemma InitLedger_twice_witness :
  world stub_transferred !! "asset3"
    = Some (encoded (with_DEALERID "DEALER109" asset3_seed)) /\
  (SmartContract.InitLedger stub_transferred).1 = None /\
  world (SmartContract.InitLedger stub_transferred).2 !! "asset3"
    = Some (encoded asset3_seed) /\
  world (SmartContract.InitLedger
           (SmartContract.InitLedger stub_transferred).2).2
    = world (SmartContract.InitLedger stub_transferred).2.
Proof.
  assert (Hf : faultless stub_transferred)
    by (intros n c; vm_compute; reflexivity).
  assert (Ha : asset3_seed ∈ SmartContract.assets) by (do 2 right; left).
  destruct (InitLedger_twice stub_transferred Hf) as (H1 & Hin & _ & _ & H2).
  split; [vm_compute; reflexivity|]. split; [exact H1|].
  split; [exact (Hin asset3_seed Ha)|exact H2].
Defined.

(** ** C9 *)

Section Invariant_facts.
Import Stub SmartContract.

(** [Marshal] sees a record only through its coerced strings. *)
Lemma Marshal_sanitize (a : Asset) :
  JSON.Marshal (sanitize a) = JSON.Marshal a.
Proof.
  unfold JSON.Marshal, fields. cbn [JSON.encode_struct JSON.encode_field].
  unfold JSON.encode_float, JSON.encode_string, sanitize.
  cbn [BALANCE DEALERID ID MPIN MSISDN REMARKS STATUS TRANSAMOUNT TRANSTYPE].
  by rewrite !toValidUTF8_idempotent.
Qed.

Lemma Marshal_same_sanitize (a b : Asset) :
  sanitize a = sanitize b -> JSON.Marshal a = JSON.Marshal b.
Proof.
  intros H. by rewrite <- (Marshal_sanitize a), H, Marshal_sanitize.
Qed.

(** The world state after each of the writing transactions: the old one, or
    the old one with one record put or one key removed. *)
Lemma CreateAsset_of_world (a : Asset) (stub : ChaincodeStub) :
  world (CreateAsset_of a stub).2 = world stub \/
  JSON.Marshal a = (encoded a, None) /\
    world (CreateAsset_of a stub).2 = <[ID a:=encoded a]> (world stub).
Proof.
  unfold CreateAsset_of, CreateAsset, bind. rewrite Asset_eta.
  destruct (AssetExists (ID a) stub) as [[b [e|]] s1] eqn:Ha;
    pose proof (AssetExists_stub (ID a) stub) as Hs; rewrite Ha in Hs;
    cbn in Hs; subst s1; [by left|].
  destruct b; [by left|].
  destruct (JSON.Marshal a) as [data [e|]] eqn:Hm; [by left|].
  rewrite (encoded_Marshal _ _ Hm).
  destruct (PutState_cases (ID a) data (tick stub)) as [[_ Hw]|[_ Hw]];
    rewrite Hw; auto.
Qed.

Lemma UpdateAsset_of_world (a : Asset) (stub : ChaincodeStub) :
  world (UpdateAsset_of a stub).2 = world stub \/
  JSON.Marshal a = (encoded a, None) /\
    world (UpdateAsset_of a stub).2 = <[ID a:=encoded a]> (world stub).
Proof.
  unfold UpdateAsset_of, UpdateAsset, bind. rewrite Asset_eta.
  destruct (AssetExists (ID a) stub) as [[b [e|]] s1] eqn:Ha;
    pose proof (AssetExists_stub (ID a) stub) as Hs; rewrite Ha in Hs;
    cbn in Hs; subst s1; [by left|].
  destruct b; [|by left]. cbn [negb].
  destruct (JSON.Marshal a) as [data [e|]] eqn:Hm; [by left|].
  rewrite (encoded_Marshal _ _ Hm).
  destruct (PutState_cases (ID a) data (tick stub)) as [[_ Hw]|[_ Hw]];
    rewrite Hw; auto.
Qed.

Lemma DeleteAsset_world (id : string) (stub : ChaincodeStub) :
  world (DeleteAsset id stub).2 = world stub \/
  world (DeleteAsset id stub).2 = delete id (world stub).
Proof.
  unfold DeleteAsset, bind.
  destruct (AssetExists id stub) as [[b [e|]] s1] eqn:Ha;
    pose proof (AssetExists_stub id stub) as Hs; rewrite Ha in Hs;
    cbn in Hs; subst s1; [by left|].
  destruct b; [|by left]. cbn [negb].
  destruct (DelState_cases id (tick stub)) as [Hw|Hw]; rewrite Hw; auto.
Qed.

Lemma TransferAsset_world (id newDealerID : string) (stub : ChaincodeStub) :
  world (TransferAsset id newDealerID stub).2 = world stub \/
  exists r,
    (ReadAsset id stub).1 = (Some r, None) /\
    world (TransferAsset id newDealerID stub).2
      = <[id:=encoded (with_DEALERID newDealerID r)]> (world stub).
Proof.
  destruct (ReadAsset id stub).1 as [[r|] [e|]] eqn:Hr.
  2:{ rewrite (TransferAsset_read _ newDealerID _ _ Hr).
      destruct (PutState_cases id (encoded (with_DEALERID newDealerID r))
                  (tick stub)) as [[_ Hw]|[_ Hw]];
        destruct (PutState _ _ _) as [[e|] s2]; cbn [snd] in Hw |- *;
        rewrite Hw; [right; by exists r..|by left|by left]. }
  all: left; unfold TransferAsset, bind;
    pose proof (ReadAsset_stub id stub) as Hs;
    destruct (ReadAsset id stub) as [r' s1]; cbn in Hr, Hs; subst r' s1;
    done.
Qed.

(** The invariant under the three ways the world state changes. *)
Lemma key_coerced_is_id_insert (w : gmap string bytes) (a : Asset) :
  key_coerced_is_id w -> JSON.Marshal a = (encoded a, None) ->
  key_coerced_is_id (<[ID a:=encoded a]> w).
Proof.
  intros Hw Hm key value [[<- <-]|[_ H]]%lookup_insert_Some.
  - exists (sanitize a). split; [by apply Unmarshal_Marshal|done].
  - by apply Hw.
Qed.

Lemma key_coerced_is_id_delete (w : gmap string bytes) (id : string) :
  key_coerced_is_id w -> key_coerced_is_id (delete id w).
Proof. intros Hw key value [_ H]%lookup_delete_Some. by apply Hw. Qed.

Lemma key_coerced_is_id_foldl (l : list Asset) :
  forall w : gmap string bytes,
    key_coerced_is_id w ->
    (forall a, a ∈ l -> JSON.Marshal a = (encoded a, None)) ->
    key_coerced_is_id (foldl (fun w a => <[ID a:=encoded a]> w) w l).
Proof.
  induction l as [|x l IH]; intros w Hw Hall; [done|].
  cbn [foldl]. apply IH.
  - apply key_coerced_is_id_insert; [done|]. apply Hall. by left.
  - intros a Ha. apply Hall. by right.
Qed.

(** The record [TransferAsset] writes back has the ID of the record it
    read, which is valid UTF-8 as that of every decoded record. *)
Lemma key_coerced_is_id_transfer (w : gmap string bytes)
    (key newDealerID : string) (r : Asset) :
  key_coerced_is_id w ->
  JSON.Unmarshal (default Nil (w !! key)) zeroAsset = (r, None) ->
  well_formed r = true ->
  key_coerced_is_id (<[key:=encoded (with_DEALERID newDealerID r)]> w).
Proof.
  intros Hw Hu Hwf key' value [[<- <-]|[_ H]]%lookup_insert_Some;
    [|by apply Hw].
  destruct (w !! key) as [v|] eqn:Hv; [|discriminate].
  destruct (Hw _ _ Hv) as (r0 & Hu0 & Hid). cbn [from_option id] in Hu.
  rewrite Hu0 in Hu. injection Hu as ->.
  exists (sanitize (with_DEALERID newDealerID r)). split.
  - by apply Unmarshal_Marshal, well_formed_with_DEALERID_finite.
  - cbn. rewrite Hid. apply toValidUTF8_idempotent.
Qed.

Lemma key_coerced_is_id_invoke (i : invocation) (stub : ChaincodeStub) :
  key_coerced_is_id (world stub) -> key_coerced_is_id (world (invoke i stub)).
Proof.
  intros Hw. destruct i as [|a|a|id|id newDealerID]; cbn [invoke].
  - destruct (InitLedger_loop_prefix assets stub) as (k & Hk & Hall & _).
    unfold InitLedger. rewrite Hk. by apply key_coerced_is_id_foldl.
  - destruct (CreateAsset_of_world a stub) as [->|[Hm ->]]; [done|].
    by apply key_coerced_is_id_insert.
  - destruct (UpdateAsset_of_world a stub) as [->|[Hm ->]]; [done|].
    by apply key_coerced_is_id_insert.
  - destruct (DeleteAsset_world id stub) as [->| ->]; [done|].
    by apply key_coerced_is_id_delete.
  - destruct (TransferAsset_world id newDealerID stub)
      as [->|(r & Hr & ->)]; [done|].
    apply ReadAsset_Some in Hr as (_ & Hu & Hwf).
    by apply key_coerced_is_id_transfer.
Qed.

Lemma key_coerced_is_id_reachable (stub : ChaincodeStub) :
  reachable stub -> key_coerced_is_id (world stub).
Proof.
  induction 1 as [stub Hempty|stub i _ IH].
  - intros key value. by rewrite Hempty, lookup_empty.
  - by apply key_coerced_is_id_invoke.
Qed.

End Invariant_facts.

(** C9, as amended. In every world state reached from the empty one by
    [InitLedger], [CreateAsset], [UpdateAsset], [DeleteAsset] and
    [TransferAsset] (whatever each of them returned), every value holds a
    record whose ID is the key the value is stored under with its invalid
    UTF-8 replaced; each of the five keeps it so. Where this holds, every
    record is stored under a key equal to its own ID exactly when every
    key of the world state is valid UTF-8. *)
Theorem key_is_id_reachable :
  (forall stub, reachable stub -> key_coerced_is_id (world stub)) /\
  (forall i stub,
     key_coerced_is_id (world stub) ->
     key_coerced_is_id (world (invoke i stub))) /\
  (forall w,
     key_coerced_is_id w ->
     (key_is_id w <->
      forall key, is_Some (w !! key) -> UTF8.valid key = true)).
Proof.
  split; [apply key_coerced_is_id_reachable|].
  split; [apply key_coerced_is_id_invoke|].
  intros w Hw. split.
  - intros Hk key [value Hv]. apply valid_spec.
    destruct (Hw key value Hv) as (r & Hu & Hid).
    destruct (Hk key value Hv) as (r' & Hu' & Hid').
    rewrite Hu in Hu'. injection Hu' as <-. congruence.
  - intros Hvalid key value Hv.
    destruct (Hw key value Hv) as (r & Hu & Hid).
    exists r. split; [exact Hu|]. rewrite Hid.
    by apply valid_spec, Hvalid.
Qed.

Lemma key_is_id_reachable_witness :
  exists value r,
    world (invoke (Transfer "asset3" "DEALER109") (invoke Seed stub_empty))
      !! "asset3" = Some value /\
    JSON.Unmarshal value zeroAsset = (r, None) /\
    ID r = "asset3".
Proof.
  assert (Hr : reachable
                 (invoke (Transfer "asset3" "DEALER109")
                    (invoke Seed stub_empty))).
  { do 2 apply reachable_invoke. by apply reachable_empty. }
  assert (Hv : world (invoke (Transfer "asset3" "DEALER109")
                        (invoke Seed stub_empty)) !! "asset3"
               = Some (encoded (with_DEALERID "DEALER109" asset3_seed)))
    by reflexivity.
  destruct (proj1 key_is_id_reachable _ Hr _ _ Hv) as (r & Hu & Hid).
  exists (encoded (with_DEALERID "DEALER109" asset3_seed)), r.
  split; [exact Hv|]. split; [exact Hu|exact Hid].
Defined.

(** C9, as stated, fails for an id that is not valid UTF-8: [CreateAsset]
    succeeds and puts, under the id as the key, a record whose ID is the
    replacement character, not the key. *)
Lemma key_is_id_reachable_counterexample :
  reachable (invoke (Create (with_ID invalid_utf8 asset9)) stub_empty) /\
  (CreateAsset_of (with_ID invalid_utf8 asset9) stub_empty).1 = None /\
  world (invoke (Create (with_ID invalid_utf8 asset9)) stub_empty)
    !! invalid_utf8 = Some (encoded (with_ID invalid_utf8 asset9)) /\
  JSON.Unmarshal (encoded (with_ID invalid_utf8 asset9)) zeroAsset
    = (with_ID UTF8.runeError asset9, None) /\
  UTF8.runeError <> invalid_utf8 /\
  ~ key_is_id
      (world (invoke (Create (with_ID invalid_utf8 asset9)) stub_empty)).
Proof.
  assert (Hv : world (invoke (Create (with_ID invalid_utf8 asset9))
                        stub_empty) !! invalid_utf8
               = Some (encoded (with_ID invalid_utf8 asset9)))
    by reflexivity.
  split; [apply reachable_invoke; by apply reachable_empty|].
  split; [reflexivity|]. split; [exact Hv|]. split; [reflexivity|].
  split; [discriminate|].
  intros Hk. destruct (Hk _ _ Hv) as (r & Hu & Hid).
  vm_compute in Hu. injection Hu as <-. discriminate Hid.
Qed.

(** ** C7 *)

Section GetAllAssets_facts.
Import Stub SmartContract.

Lemma in_range_all (key : string) : in_range "" "" key = true.
Proof. by destruct key. Qed.

Lemma filter_in_range_all (l : list (string * bytes)) :
  filter (fun kv : string * bytes => in_range "" "" kv.1) l = l.
Proof.
  induction l as [|kv l IH]; [done|].
  rewrite filter_cons_True by (by rewrite in_range_all). by rewrite IH.
Qed.

(** On a stub that serves every call, the loop of [GetAllAssets] decodes
    the entries one after the other, as long as each decodes. *)
Lemma GetAllAssets_loop_faultless (todo : list (string * bytes)) :
  forall acc stub,
    faultless stub ->
    (forall kv, kv ∈ todo -> (JSON.Unmarshal kv.2 zeroAsset).2 = None) ->
    (GetAllAssets_loop todo acc stub).1
      = ((acc ++ map (fun kv => (JSON.Unmarshal kv.2 zeroAsset).1) todo)%list,
         None).
Proof.
  induction todo as [|kv todo IH]; intros acc stub Hf Hall.
  { cbn. by rewrite app_nil_r. }
  cbn [GetAllAssets_loop]. unfold Next, bind, serve. rewrite Hf. unfold ret at 1.
  pose proof (Hall kv ltac:(left)) as Hkv.
  destruct (JSON.Unmarshal kv.2 zeroAsset) as [asset err] eqn:Hu.
  cbn in Hkv. subst err.
  rewrite (IH (acc ++ [asset])%list (tick stub) (faultless_tick _ Hf)).
  - cbn [map]. rewrite Hu. cbn [fst]. by rewrite <- app_assoc.
  - intros kv' Hkv'. apply Hall. by right.
Qed.

Lemma GetAllAssets_faultless (stub : ChaincodeStub) :
  faultless stub ->
  (forall kv, kv ∈ map_to_list (world stub) ->
     (JSON.Unmarshal kv.2 zeroAsset).2 = None) ->
  exists rs,
    (GetAllAssets stub).1 = (rs, None) /\
    rs ≡ₚ map (fun kv => (JSON.Unmarshal kv.2 zeroAsset).1)
            (map_to_list (world stub)).
Proof.
  intros Hf Hall. unfold GetAllAssets, GetStateByRange, bind, serve.
  rewrite Hf, filter_in_range_all. eexists. split.
  - apply GetAllAssets_loop_faultless; [by apply faultless_tick|].
    intros kv Hkv. apply Hall. by rewrite <- (merge_sort_Permutation key_le).
  - cbn [app]. apply Permutation_map, merge_sort_Permutation.
Qed.

(** The entry a record is stored as. *)
Lemma Unmarshal_encoded (a : Asset) :
  JSON.Marshal a = (encoded a, None) ->
  JSON.Unmarshal (encoded a) zeroAsset = (sanitize a, None).
Proof. apply Unmarshal_Marshal. Qed.

(** After a run of successful [CreateAsset] calls, the world state holds
    the old entries and one entry per call. *)
Lemma create_all_world (l : list Asset) :
  forall stub stub1,
    create_all l stub = Some stub1 ->
    (forall key, world stub !! key <> Some Nil) ->
    faults stub1 = faults stub /\
    (forall a, a ∈ l -> JSON.Marshal a = (encoded a, None)) /\
    map_to_list (world stub1)
      ≡ₚ (map (fun a => (ID a, encoded a)) l ++ map_to_list (world stub))%list.
Proof.
  induction l as [|a l IH]; intros stub stub1 H Hnn.
  { injection H as <-. split; [done|]. split; [|done].
    intros a Ha. by apply elem_of_nil in Ha. }
  cbn [create_all] in H.
  destruct (CreateAsset_of a stub) as [[e|] s'] eqn:Hc; [discriminate|].
  apply CreateAsset_of_success in Hc as (Habs & Hm & Hw & _ & Hfl).
  assert (Hnone : world stub !! ID a = None).
  { destruct (world stub !! ID a) as [v|] eqn:Hv; [|done].
    cbn in Habs. subst v. by destruct (Hnn (ID a)). }
  apply IH in H as (Hfl' & Hall & Hperm).
  - split; [congruence|]. split.
    + intros x [->|Hx]%elem_of_cons; [done|by apply Hall].
    + rewrite Hperm, Hw, map_to_list_insert by done.
      cbn [map app]. by rewrite Permutation_middle.
  - intros key. rewrite Hw.
    intros [[_ Hnil]|[_ Hold]]%lookup_insert_Some; [|by apply (Hnn key)].
    apply (Marshal_not_Nil a). by rewrite Hm, <- Hnil.
Qed.

Lemma create_all_empty (l : list Asset) (stub stub1 : ChaincodeStub) :
  world stub = ∅ ->
  create_all l stub = Some stub1 ->
  faults stub1 = faults stub /\
  (forall a, a ∈ l -> JSON.Marshal a = (encoded a, None)) /\
  map_to_list (world stub1) ≡ₚ map (fun a => (ID a, encoded a)) l /\
  NoDup (map ID l).
Proof.
  intros Hempty H. apply create_all_world in H as (Hfl & Hall & Hperm).
  2:{ intros key. by rewrite Hempty, lookup_empty. }
  rewrite Hempty, map_to_list_empty, app_nil_r in Hperm.
  repeat split; [done..|].
  pose proof (NoDup_fst_map_to_list (world stub1)) as Hnd.
  rewrite Hperm in Hnd. by rewrite <- list_fmap_compose in Hnd.
Qed.

(** Decoding the entries of records gives the records, coerced. *)
Lemma decode_entries (l : list Asset) (kvs : list (string * bytes)) :
  (forall a, a ∈ l -> JSON.Marshal a = (encoded a, None)) ->
  kvs ≡ₚ map (fun a => (ID a, encoded a)) l ->
  (forall kv, kv ∈ kvs -> (JSON.Unmarshal kv.2 zeroAsset).2 = None) /\
  map (fun kv => (JSON.Unmarshal kv.2 zeroAsset).1) kvs ≡ₚ map sanitize l.
Proof.
  intros Hall Hperm. split.
  - intros kv Hkv. rewrite Hperm in Hkv.
    apply list_elem_of_fmap in Hkv as (a & -> & Ha). cbn.
    by rewrite (Unmarshal_encoded a (Hall a Ha)).
  - rewrite Hperm, map_map. apply Permutation_refl'.
    apply map_ext_in. intros a Ha%list_elem_of_In. cbn.
    by rewrite (Unmarshal_encoded a (Hall a Ha)).
Qed.

Lemma filter_all {A} (P : A -> Prop) `{forall x, Decision (P x)} (l : list A) :
  (forall x, x ∈ l -> P x) -> filter P l = l.
Proof.
  induction l as [|x l IH]; intros Hall; [done|].
  rewrite filter_cons_True by (apply Hall; left).
  f_equal. apply IH. intros y Hy. apply Hall. by right.
Qed.

(** Taking the entry of one ID out of the entries of records with distinct
    IDs leaves the entries of the other records. *)
Lemma entries_delete (l : list Asset) (kvs : list (string * bytes))
    (id : string) (value : bytes) :
  NoDup (map ID l) ->
  (id, value) :: kvs ≡ₚ map (fun a => (ID a, encoded a)) l ->
  kvs ≡ₚ map (fun a => (ID a, encoded a)) (filter (fun a => ID a <> id) l).
Proof.
  intros Hnd Hperm.
  assert (Hin : (id, value) ∈ map (fun a => (ID a, encoded a)) l)
    by (rewrite <- Hperm; left).
  apply list_elem_of_fmap in Hin as (a & [= -> ->] & Ha).
  apply list_elem_of_split in Ha as (l1 & l2 & ->).
  rewrite map_app in Hnd. cbn [map] in Hnd.
  apply NoDup_app in Hnd as (_ & Hl1 & [Hl2 _]%NoDup_cons).
  rewrite filter_app, filter_cons_False by (intros Hne; by apply Hne).
  rewrite !filter_all.
  - rewrite map_app in Hperm |- *. cbn [map] in Hperm.
    rewrite <- Permutation_middle in Hperm.
    by apply Permutation_cons_inv in Hperm.
  - intros x Hx Heq. apply Hl2. rewrite <- Heq.
    by apply (list_elem_of_fmap_2 ID).
  - intros x Hx Heq. apply (Hl1 (ID x)).
    + by apply (list_elem_of_fmap_2 ID).
    + rewrite Heq. left.
Qed.

Lemma DeleteAsset_present (key : string) (stub : ChaincodeStub)
    (value : bytes) :
  faultless stub ->
  world stub !! key = Some value -> is_nil value = false ->
  DeleteAsset key stub =
    (None,
     mkStub (delete key (world stub)) (S (S (served stub))) (faults stub)).
Proof.
  intros Hf Hv Hnn. unfold DeleteAsset, bind.
  rewrite (AssetExists_served _ _ (Hf _ _)), Hv. cbn [from_option id].
  rewrite Hnn. cbn [negb]. by rewrite DelState_served by apply Hf.
Qed.

End GetAllAssets_facts.

(** C7, as amended. From an empty world state and on a stub that serves
    every call, after a run of N successful [CreateAsset] calls: the ids are
    pairwise distinct; [GetAllAssets] returns N records, one for each record
    created and no other, each being the record created with the invalid
    UTF-8 bytes of its strings replaced by U+FFFD (so the record created
    itself when its strings are valid UTF-8); and after a [DeleteAsset] of
    one of the ids, which succeeds, [GetAllAssets] returns in the same way
    the N-1 records of the other ids. *)
Theorem GetAllAssets_after_creates (l : list Asset)
    (stub stub1 : ChaincodeStub) :
  faultless stub ->
  world stub = ∅ ->
  create_all l stub = Some stub1 ->
  NoDup (map ID l) /\
  (exists rs,
     (SmartContract.GetAllAssets stub1).1 = (rs, None) /\
     Permutation rs (map sanitize l) /\
     length rs = length l) /\
  (forall id, id ∈ map ID l ->
     (SmartContract.DeleteAsset id stub1).1 = None /\
     exists rs',
       (SmartContract.GetAllAssets (SmartContract.DeleteAsset id stub1).2).1
         = (rs', None) /\
       Permutation rs' (map sanitize (filter (fun a => ID a <> id) l)) /\
       S (length rs') = length l) /\
  (forall a, well_formed a = true -> sanitize a = a).
Proof.
  intros Hf Hempty Hc.
  apply create_all_empty in Hc as (Hfl & Hall & Hperm & Hnd); [|done].
  assert (Hf1 : faultless stub1) by (intros n c; rewrite Hfl; apply Hf).
  split; [exact Hnd|]. split; [|split; [|apply well_formed_sanitize]].
  - destruct (decode_entries l _ Hall Hperm) as [Hdec Hmap].
    destruct (GetAllAssets_faultless stub1 Hf1 Hdec) as (rs & Hrs & Hp).
    exists rs. split; [exact Hrs|].
    assert (Hps : Permutation rs (map sanitize l)) by (by rewrite Hp).
    split; [exact Hps|]. by rewrite Hps, length_map.
  - intros id (a & -> & Ha)%list_elem_of_fmap.
    assert (Hv : world stub1 !! ID a = Some (encoded a)).
    { apply elem_of_map_to_list. rewrite Hperm.
      by apply (list_elem_of_fmap_2 (fun a => (ID a, encoded a))). }
    rewrite (DeleteAsset_present _ _ _ Hf1 Hv (is_nil_encoded _ _ (Hall a Ha))).
    split; [done|]. cbn [snd].
    pose proof (map_to_list_delete _ _ _ Hv) as Hd. rewrite Hperm in Hd.
    pose proof (entries_delete _ _ _ _ Hnd Hd) as Hd'.
    destruct (decode_entries (filter (fun x => ID x <> ID a) l) _
                (fun x Hx => Hall x (proj2 (proj1 (list_elem_of_filter _ _ _) Hx)))
                Hd') as [Hdec Hmap].
    destruct (GetAllAssets_faultless
                (mkStub (delete (ID a) (world stub1)) (S (S (served stub1)))
                   (faults stub1)) Hf1 Hdec) as (rs & Hrs & Hp).
    exists rs. split; [exact Hrs|].
    split; [by rewrite Hp|].
    rewrite Hp, length_map. cbn [world].
    apply Permutation_length in Hd. cbn [length] in Hd.
    by rewrite Hd, length_map.
Qed.

Lemma GetAllAssets_after_creates_witness :
  exists rs,
    (SmartContract.GetAllAssets
       (default stub_empty (create_all [asset9; asset3_seed] stub_empty))).1
      = (rs, None) /\
    length rs = 2.
Proof.
  assert (Hf : faultless stub_empty) by (intros n c; reflexivity).
  assert (Hc : create_all [asset9; asset3_seed] stub_empty
               = Some (default stub_empty
                         (create_all [asset9; asset3_seed] stub_empty)))
    by reflexivity.
  destruct (GetAllAssets_after_creates _ _ _ Hf eq_refl Hc)
    as (_ & (rs & Hrs & _ & Hlen) & _).
  exists rs. split; [exact Hrs | exact Hlen].
Defined.

(** C7, as stated, fails for a record created with a string that is not
    valid UTF-8: [CreateAsset] succeeds, and the one record [GetAllAssets]
    returns is not the record created. *)
Lemma GetAllAssets_after_creates_counterexample :
  world stub_empty = ∅ /\
  (CreateAsset_of asset9_invalid stub_empty).1 = None /\
  (SmartContract.GetAllAssets (CreateAsset_of asset9_invalid stub_empty).2).1
    = ([with_DEALERID UTF8.runeError asset9], None) /\
  with_DEALERID UTF8.runeError asset9 <> asset9_invalid.
Proof. repeat split; try reflexivity. discriminate. Qed.

(** ** C1 *)




(** * Further properties of the contract *)

(** ** Transactions that fail, and what a transaction touches *)

Section Effect_facts.
Import Stub SmartContract.

Lemma absent_default (w : gmap string bytes) (key : string) :
  w !! key = None -> default Nil (w !! key) = Nil.
Proof. by intros ->. Qed.

Lemma GetAllAssets_loop_world (todo : list (string * bytes)) :
  forall acc stub, world (GetAllAssets_loop todo acc stub).2 = world stub.
Proof.
  induction todo as [|kv todo IH]; intros acc stub; [done|].
  cbn [GetAllAssets_loop]. unfold Next, bind, serve.
  destruct (faults stub (served stub) CallNext); [done|].
  unfold ret at 1.
  destruct (JSON.Unmarshal kv.2 zeroAsset) as [asset [e|]]; [done|].
  by rewrite IH.
Qed.

Lemma GetAllAssets_world (stub : ChaincodeStub) :
  world (GetAllAssets stub).2 = world stub.
Proof.
  unfold GetAllAssets, GetStateByRange, bind, serve.
  destruct (faults stub (served stub) (CallGetStateByRange "" "")); [done|].
  by rewrite GetAllAssets_loop_world.
Qed.

(** [CreateAsset], [UpdateAsset], [DeleteAsset]: an error means that the
    world state is as before. *)
Lemma CreateAsset_of_error (a : Asset) (stub : ChaincodeStub) :
  (CreateAsset_of a stub).1 <> None ->
  world (CreateAsset_of a stub).2 = world stub.
Proof.
  unfold CreateAsset_of, CreateAsset, bind. rewrite Asset_eta.
  destruct (AssetExists (ID a) stub) as [[b [e|]] s1] eqn:Ha;
    pose proof (AssetExists_stub (ID a) stub) as Hs; rewrite Ha in Hs;
    cbn in Hs; subst s1; [done|].
  destruct b; [done|].
  destruct (JSON.Marshal a) as [data [e|]] eqn:Hm; [done|].
  by destruct (PutState_cases (ID a) data (tick stub)) as [[-> _]|[_ ->]].
Qed.

Lemma UpdateAsset_of_error (a : Asset) (stub : ChaincodeStub) :
  (UpdateAsset_of a stub).1 <> None ->
  world (UpdateAsset_of a stub).2 = world stub.
Proof.
  unfold UpdateAsset_of, UpdateAsset, bind. rewrite Asset_eta.
  destruct (AssetExists (ID a) stub) as [[b [e|]] s1] eqn:Ha;
    pose proof (AssetExists_stub (ID a) stub) as Hs; rewrite Ha in Hs;
    cbn in Hs; subst s1; [done|].
  destruct b; [|done]. cbn [negb].
  destruct (JSON.Marshal a) as [data [e|]] eqn:Hm; [done|].
  by destruct (PutState_cases (ID a) data (tick stub)) as [[-> _]|[_ ->]].
Qed.

Lemma DelState_fault key stub msg :
  faults stub (served stub) (CallDelState key) = Some msg ->
  DelState key stub = (Some (StubError msg), tick stub).
Proof. intros H. unfold DelState, bind, serve. by rewrite H. Qed.

Lemma DeleteAsset_error (key : string) (stub : ChaincodeStub) :
  (DeleteAsset key stub).1 <> None ->
  world (DeleteAsset key stub).2 = world stub.
Proof.
  unfold DeleteAsset, bind.
  destruct (AssetExists key stub) as [[b [e|]] s1] eqn:Ha;
    pose proof (AssetExists_stub key stub) as Hs; rewrite Ha in Hs;
    cbn in Hs; subst s1; [done|].
  destruct b; [|done]. cbn [negb].
  destruct (faults (tick stub) (served (tick stub)) (CallDelState key))
    eqn:Hf.
  - by rewrite (DelState_fault _ _ _ Hf).
  - by rewrite (DelState_served _ _ Hf).
Qed.

Lemma TransferAsset_error (key newDealerID : string) (stub : ChaincodeStub) :
  (TransferAsset key newDealerID stub).1.2 <> None ->
  world (TransferAsset key newDealerID stub).2 = world stub.
Proof.
  destruct (ReadAsset key stub).1 as [[r|] [e|]] eqn:Hr.
  2:{ rewrite (TransferAsset_read _ newDealerID _ _ Hr).
      destruct (PutState_cases key (encoded (with_DEALERID newDealerID r))
                  (tick stub)) as [[He _]|[_ Hw]];
        destruct (PutState _ _ _) as [[e|] s2]; cbn in *; done. }
  all: intros _; unfold TransferAsset, bind;
    pose proof (ReadAsset_stub key stub) as Hs;
    destruct (ReadAsset key stub) as [r' s1]; cbn in Hr, Hs; subst r' s1;
    done.
Qed.

End Effect_facts.

(** X1. On a key without a value, when the stub's read is served:
    [AssetExists] returns false and no error, and [ReadAsset],
    [DeleteAsset] and [TransferAsset] fail with the same not-found error,
    [ReadAsset] with a nil record and [TransferAsset] with an empty string;
    none of them writes. *)
Theorem absent_not_found (id newDealerID : string) (stub : ChaincodeStub) :
  world stub !! id = None ->
  faults stub (served stub) (CallGetState id) = None ->
  (SmartContract.AssetExists id stub).1 = (false, None) /\
  (SmartContract.ReadAsset id stub).1
    = (None, Some (Errorf ("the asset " ++ id ++ " does not exist"))) /\
  SmartContract.DeleteAsset id stub
    = (Some (Errorf ("the asset " ++ id ++ " does not exist")), tick stub) /\
  SmartContract.TransferAsset id newDealerID stub
    = (("", Some (Errorf ("the asset " ++ id ++ " does not exist"))),
       tick stub).
Proof.
  intros Habs Hf.
  assert (Hr : SmartContract.ReadAsset id stub
               = ((None, Some (Errorf ("the asset " ++ id ++ " does not exist"))),
                  tick stub)).
  { rewrite (ReadAsset_served _ _ Hf), Habs. done. }
  repeat split.
  - by rewrite (AssetExists_served _ _ Hf), Habs.
  - by rewrite Hr.
  - unfold SmartContract.DeleteAsset, bind.
    by rewrite (AssetExists_served _ _ Hf), Habs.
  - unfold SmartContract.TransferAsset, bind. by rewrite Hr.
Qed.

Lemma absent_not_found_witness :
  (SmartContract.ReadAsset "asset9" stub_seeded).1
    = (None, Some (Errorf "the asset asset9 does not exist")) /\
  (SmartContract.TransferAsset "asset9" "DEALER109" stub_seeded).1
    = ("", Some (Errorf "the asset asset9 does not exist")).
Proof.
  destruct (absent_not_found "asset9" "DEALER109" stub_seeded eq_refl eq_refl)
    as (_ & Hr & _ & Ht).
  split; [exact Hr | by rewrite Ht].
Defined.

(** X2. [AssetExists], [ReadAsset] and [GetAllAssets] never write: whatever
    the stub holds and whichever calls it fails, the world state after them
    is the world state before. *)
Theorem queries_write_nothing (id : string) (stub : ChaincodeStub) :
  world (SmartContract.AssetExists id stub).2 = world stub /\
  world (SmartContract.ReadAsset id stub).2 = world stub /\
  world (SmartContract.GetAllAssets stub).2 = world stub.
Proof.
  split; [by rewrite AssetExists_stub|].
  split; [by rewrite ReadAsset_stub|]. apply GetAllAssets_world.
Qed.

(** X3. A [CreateAsset], [UpdateAsset], [DeleteAsset] or [TransferAsset]
    that returns an error has written nothing: the world state is the one
    before the call, whatever made the call fail. *)
Theorem error_writes_nothing (a : Asset) (id newDealerID : string)
    (stub : ChaincodeStub) :
  ((CreateAsset_of a stub).1 <> None ->
   world (CreateAsset_of a stub).2 = world stub) /\
  ((UpdateAsset_of a stub).1 <> None ->
   world (UpdateAsset_of a stub).2 = world stub) /\
  ((SmartContract.DeleteAsset id stub).1 <> None ->
   world (SmartContract.DeleteAsset id stub).2 = world stub) /\
  ((SmartContract.TransferAsset id newDealerID stub).1.2 <> None ->
   world (SmartContract.TransferAsset id newDealerID stub).2 = world stub).
Proof.
  split; [apply CreateAsset_of_error|].
  split; [apply UpdateAsset_of_error|].
  split; [apply DeleteAsset_error | apply TransferAsset_error].
Qed.

Lemma error_writes_nothing_witness :
  (SmartContract.TransferAsset "asset3" "DEALER109" stub_readonly).1.2
    = Some (StubError "ledger is read-only") /\
  world (SmartContract.TransferAsset "asset3" "DEALER109" stub_readonly).2
    = world stub_readonly.
Proof.
  split; [reflexivity|].
  apply (proj2 (proj2 (proj2
           (error_writes_nothing asset9 "asset3" "DEALER109" stub_readonly)))).
  discriminate.
Defined.

(** X4. Each transaction touches its own key only: [CreateAsset] and
    [UpdateAsset] leave every key other than the id of the record as it
    was, [DeleteAsset] and [TransferAsset] every key other than their id, and
    [InitLedger] every key that is not the ID of one of its seven records;
    this holds whatever the transaction returns. *)
Theorem other_keys_untouched (a : Asset) (id newDealerID key : string)
    (stub : ChaincodeStub) :
  (key <> ID a ->
   world (CreateAsset_of a stub).2 !! key = world stub !! key) /\
  (key <> ID a ->
   world (UpdateAsset_of a stub).2 !! key = world stub !! key) /\
  (key <> id ->
   world (SmartContract.DeleteAsset id stub).2 !! key = world stub !! key) /\
  (key <> id ->
   world (SmartContract.TransferAsset id newDealerID stub).2 !! key
     = world stub !! key) /\
  (key ∉ map ID SmartContract.assets ->
   world (SmartContract.InitLedger stub).2 !! key = world stub !! key).
Proof.
  repeat split.
  - intros Hne. destruct (CreateAsset_of_world a stub) as [->|[_ ->]];
      [done|by apply lookup_insert_ne].
  - intros Hne. destruct (UpdateAsset_of_world a stub) as [->|[_ ->]];
      [done|by apply lookup_insert_ne].
  - intros Hne. destruct (DeleteAsset_world id stub) as [->| ->];
      [done|by apply lookup_delete_ne].
  - intros Hne. destruct (TransferAsset_world id newDealerID stub)
      as [->|(r & _ & ->)]; [done|by apply lookup_insert_ne].
  - intros Hk.
    destruct (InitLedger_loop_prefix SmartContract.assets stub)
      as (k & Hw & _ & _).
    unfold SmartContract.InitLedger. rewrite Hw.
    apply foldl_insert_notin. intros Hin. apply Hk.
    apply list_elem_of_fmap in Hin as (x & -> & Hx).
    apply (list_elem_of_fmap_2 ID). by eapply subseteq_take.
Qed.

Lemma other_keys_untouched_witness :
  world (SmartContract.TransferAsset "asset3" "DEALER109" stub_seeded).2
    !! "asset4" = world stub_seeded !! "asset4".
Proof.
  apply (proj1 (proj2 (proj2 (proj2
           (other_keys_untouched asset9 "asset3" "DEALER109" "asset4"
              stub_seeded))))).
  discriminate.
Defined.

(** ** When a transaction succeeds, and what it leaves *)

Section Success_facts.
Import Stub SmartContract.

Lemma Marshal_success_iff (a : Asset) :
  (JSON.Marshal a).2 = None <->
  is_finite (BALANCE a) = true /\ is_finite (TRANSAMOUNT a) = true.
Proof.
  split.
  - intros H. apply (Marshal_inv a (JSON.Marshal a).1).
    by destruct (JSON.Marshal a) as [d e]; cbn in H; subst e.
  - intros [Hb Ht]. by rewrite (Marshal_finite a Hb Ht).
Qed.

Lemma Marshal_encoded_iff (a : Asset) :
  JSON.Marshal a = (encoded a, None) <->
  is_finite (BALANCE a) = true /\ is_finite (TRANSAMOUNT a) = true.
Proof.
  rewrite <- Marshal_success_iff. unfold encoded.
  destruct (JSON.Marshal a) as [d e]; cbn. split; [by intros [= ->]|].
  by intros ->.
Qed.

Lemma is_nil_false (b : bytes) : is_nil b = false <-> b <> Nil.
Proof. by destruct b. Qed.

Lemma UpdateAsset_of_present a stub :
  faults stub (served stub) (CallGetState (ID a)) = None ->
  default Nil (world stub !! ID a) <> Nil ->
  JSON.Marshal a = (encoded a, None) ->
  UpdateAsset_of a stub = PutState (ID a) (encoded a) (tick stub).
Proof.
  intros Hf Hp%is_nil_false Hm. unfold UpdateAsset_of, UpdateAsset, bind.
  rewrite (AssetExists_served _ _ Hf), Hp, Asset_eta, Hm. done.
Qed.

(** Reading a key whose value is the serialization of a record. *)
Lemma ReadAsset_encoded a key stub :
  faults stub (served stub) (CallGetState key) = None ->
  world stub !! key = Some (encoded a) ->
  JSON.Marshal a = (encoded a, None) ->
  (ReadAsset key stub).1 = (Some (sanitize a), None).
Proof.
  intros Hf Hv Hm. rewrite (ReadAsset_served _ _ Hf), Hv. cbn [from_option id fst].
  rewrite (is_nil_encoded _ _ Hm).
  by rewrite (Unmarshal_Marshal a zeroAsset _ Hm).
Qed.

(** The second of two transfers on a serialized record puts back what
    [Marshal] sees of the first record. *)
Lemma sanitize_transfer_back (a : Asset) (newDealerID : string) :
  sanitize
    (with_DEALERID (DEALERID (sanitize a))
       (sanitize (with_DEALERID newDealerID (sanitize a))))
  = sanitize a.
Proof.
  destruct a; unfold sanitize, with_DEALERID; cbn.
  by rewrite !toValidUTF8_idempotent.
Qed.

Lemma well_formed_sanitized (a : Asset) :
  is_finite (BALANCE a) = true -> is_finite (TRANSAMOUNT a) = true ->
  well_formed (sanitize a) = true.
Proof.
  intros Hb Ht. apply well_formed_spec. cbn.
  split; [done|]. split; [done|]. apply sanitize_idempotent.
Qed.

End Success_facts.

(** X5. On a stub that serves every call, [CreateAsset] succeeds exactly
    when the key has no value and both numbers are finite, and then the
    world state is the old one with the serialized record under the id. *)
Theorem CreateAsset_success_iff (a : Asset) (stub : ChaincodeStub) :
  faultless stub ->
  ((CreateAsset_of a stub).1 = None <->
   default Nil (world stub !! ID a) = Nil /\
   is_finite (BALANCE a) = true /\ is_finite (TRANSAMOUNT a) = true) /\
  ((CreateAsset_of a stub).1 = None ->
   world (CreateAsset_of a stub).2 = <[ID a:=encoded a]> (world stub)).
Proof.
  intros Hf. split; [split|].
  - intros H.
    destruct (CreateAsset_of a stub) as [e s1] eqn:Hc. cbn in H. subst e.
    apply CreateAsset_of_success in Hc as (Habs & Hm & _).
    split; [done|]. by apply Marshal_encoded_iff.
  - intros (Habs & Hfin). apply Marshal_encoded_iff in Hfin.
    rewrite (CreateAsset_of_absent a stub (Hf _ _) Habs Hfin).
    by rewrite PutState_served by apply Hf.
  - intros H.
    destruct (CreateAsset_of a stub) as [e s1] eqn:Hc. cbn in H. subst e.
    by apply CreateAsset_of_success in Hc as (_ & _ & Hw & _).
Qed.

Lemma CreateAsset_success_iff_witness :
  (CreateAsset_of asset9 stub_seeded).1 = None /\
  (CreateAsset_of asset3_seed stub_seeded).1 <> None.
Proof.
  assert (Hf : faultless stub_seeded) by (intros n c; reflexivity).
  split.
  - apply (proj1 (CreateAsset_success_iff asset9 stub_seeded Hf)).
    repeat split; reflexivity.
  - intros H.
    apply (proj1 (CreateAsset_success_iff asset3_seed stub_seeded Hf)) in H
      as [H _].
    vm_compute in H. discriminate.
Defined.

(** X6. On a stub that serves every call, [UpdateAsset] succeeds exactly
    when the key has a value and both numbers are finite; the value the key
    had plays no part, it need not even be the serialization of a record. *)
Theorem UpdateAsset_success_iff (a : Asset) (stub : ChaincodeStub) :
  faultless stub ->
  ((UpdateAsset_of a stub).1 = None <->
   default Nil (world stub !! ID a) <> Nil /\
   is_finite (BALANCE a) = true /\ is_finite (TRANSAMOUNT a) = true).
Proof.
  intros Hf. split.
  - unfold UpdateAsset_of, SmartContract.UpdateAsset, bind.
    rewrite (AssetExists_served _ _ (Hf _ _)), Asset_eta.
    destruct (SmartContract.is_nil _) eqn:Hn; [discriminate|]. cbn [negb].
    apply is_nil_false in Hn. intros H. split; [done|].
    apply Marshal_success_iff.
    destruct (JSON.Marshal a) as [data [e|]]; [discriminate|done].
  - intros (Hp & Hfin). apply Marshal_encoded_iff in Hfin.
    rewrite (UpdateAsset_of_present a stub (Hf _ _) Hp Hfin).
    by rewrite PutState_served by apply Hf.
Qed.

Lemma UpdateAsset_success_iff_witness :
  (UpdateAsset_of (with_ID "asset3" asset9) stub_seeded).1 = None /\
  (UpdateAsset_of (with_BALANCE infinity asset3_seed) stub_seeded).1 <> None.
Proof.
  assert (Hf : faultless stub_seeded) by (intros n c; reflexivity).
  split.
  - apply (proj2 (UpdateAsset_success_iff _ stub_seeded Hf)).
    repeat split; try reflexivity. discriminate.
  - intros H.
    apply (proj1 (UpdateAsset_success_iff _ stub_seeded Hf)) in H
      as (_ & H & _).
    vm_compute in H. discriminate.
Defined.

(** X7. [UpdateAsset] replaces the whole record: on a stub that serves
    every call, for a key that has a value and finite numbers, it succeeds
    and the [ReadAsset] that follows returns the record of the nine
    arguments, its strings coerced to valid UTF-8 (so exactly the arguments
    when they are well-formed); nothing of the old value is left. *)
Theorem UpdateAsset_then_ReadAsset (a : Asset) (stub : ChaincodeStub) :
  faultless stub ->
  default Nil (world stub !! ID a) <> Nil ->
  is_finite (BALANCE a) = true ->
  is_finite (TRANSAMOUNT a) = true ->
  (UpdateAsset_of a stub).1 = None /\
  (SmartContract.ReadAsset (ID a) (UpdateAsset_of a stub).2).1
    = (Some (sanitize a), None) /\
  (well_formed a = true ->
   (SmartContract.ReadAsset (ID a) (UpdateAsset_of a stub).2).1
     = (Some a, None)).
Proof.
  intros Hf Hp Hb Ht.
  assert (Hm : JSON.Marshal a = (encoded a, None))
    by (by apply Marshal_encoded_iff).
  rewrite (UpdateAsset_of_present a stub (Hf _ _) Hp Hm).
  rewrite PutState_served by apply Hf. split; [done|]. cbn [snd].
  assert (Hr : (SmartContract.ReadAsset (ID a)
                  (mkStub (<[ID a:=encoded a]> (world (tick stub)))
                     (S (served (tick stub))) (faults (tick stub)))).1
               = (Some (sanitize a), None)).
  { apply ReadAsset_encoded; [apply Hf|apply lookup_insert_eq|done]. }
  split; [exact Hr|]. intros Hwf. by rewrite Hr, (well_formed_sanitize a Hwf).
Qed.

Lemma UpdateAsset_then_ReadAsset_witness :
  (SmartContract.ReadAsset "asset3"
     (UpdateAsset_of (with_ID "asset3" asset9) stub_seeded).2).1
    = (Some (with_ID "asset3" asset9), None).
Proof.
  assert (Hf : faultless stub_seeded) by (intros n c; reflexivity).
  assert (Hp : default Nil (world stub_seeded !! ID (with_ID "asset3" asset9))
               <> Nil) by discriminate.
  destruct (UpdateAsset_then_ReadAsset (with_ID "asset3" asset9) stub_seeded
              Hf Hp eq_refl eq_refl) as (_ & _ & Hr).
  apply Hr. reflexivity.
Defined.

(** X8. On a stub that serves every call, [DeleteAsset] on a key that has a
    value succeeds and removes the key; after it [AssetExists] returns
    false, [ReadAsset] fails with the not-found error, and a second
    [DeleteAsset] fails with the not-found error. *)
Theorem DeleteAsset_then (id : string) (stub : ChaincodeStub) :
  faultless stub ->
  default Nil (world stub !! id) <> Nil ->
  (SmartContract.DeleteAsset id stub).1 = None /\
  world (SmartContract.DeleteAsset id stub).2 = delete id (world stub) /\
  (SmartContract.AssetExists id (SmartContract.DeleteAsset id stub).2).1
    = (false, None) /\
  (SmartContract.ReadAsset id (SmartContract.DeleteAsset id stub).2).1
    = (None, Some (Errorf ("the asset " ++ id ++ " does not exist"))) /\
  (SmartContract.DeleteAsset id (SmartContract.DeleteAsset id stub).2).1
    = Some (Errorf ("the asset " ++ id ++ " does not exist")).
Proof.
  intros Hf Hp.
  destruct (world stub !! id) as [v|] eqn:Hv; [|done]. cbn in Hp.
  apply is_nil_false in Hp.
  rewrite (DeleteAsset_present id stub v Hf Hv Hp). cbn [fst snd world].
  split; [done|]. split; [done|].
  rewrite AssetExists_served, ReadAsset_served by apply Hf.
  unfold SmartContract.DeleteAsset, bind.
  rewrite AssetExists_served by apply Hf.
  cbn [world]. by rewrite lookup_delete_eq.
Qed.

Lemma DeleteAsset_then_witness :
  (SmartContract.DeleteAsset "asset3" stub_seeded).1 = None /\
  (SmartContract.ReadAsset "asset3"
     (SmartContract.DeleteAsset "asset3" stub_seeded).2).1
    = (None, Some (Errorf "the asset asset3 does not exist")).
Proof.
  assert (Hf : faultless stub_seeded) by (intros n c; reflexivity).
  assert (Hp : default Nil (world stub_seeded !! "asset3") <> Nil)
    by discriminate.
  destruct (DeleteAsset_then "asset3" stub_seeded Hf Hp)
    as (Hd & _ & _ & Hr & _).
  split; [exact Hd | exact Hr].
Defined.

(** X9. Creating a record under a key that is not in the world state and
    then deleting the key gives back the world state from before, on a stub
    that serves every call and for finite numbers. *)
Theorem CreateAsset_then_DeleteAsset (a : Asset) (stub : ChaincodeStub) :
  faultless stub ->
  world stub !! ID a = None ->
  is_finite (BALANCE a) = true ->
  is_finite (TRANSAMOUNT a) = true ->
  (CreateAsset_of a stub).1 = None /\
  (SmartContract.DeleteAsset (ID a) (CreateAsset_of a stub).2).1 = None /\
  world (SmartContract.DeleteAsset (ID a) (CreateAsset_of a stub).2).2
    = world stub.
Proof.
  intros Hf Habs Hb Ht.
  assert (Hm : JSON.Marshal a = (encoded a, None))
    by (by apply Marshal_encoded_iff).
  rewrite (CreateAsset_of_absent a stub (Hf _ _) (absent_default _ _ Habs) Hm).
  rewrite PutState_served by apply Hf. split; [done|]. cbn [snd].
  rewrite (DeleteAsset_present (ID a) _ (encoded a));
    [|done|apply lookup_insert_eq|by apply (is_nil_encoded a)].
  cbn [fst snd world tick]. split; [done|].
  by rewrite delete_insert_eq, delete_id.
Qed.

Lemma CreateAsset_then_DeleteAsset_witness :
  world (SmartContract.DeleteAsset "asset9"
           (CreateAsset_of asset9 stub_seeded).2).2 = world stub_seeded.
Proof.
  assert (Hf : faultless stub_seeded) by (intros n c; reflexivity).
  exact (proj2 (proj2 (CreateAsset_then_DeleteAsset asset9 stub_seeded Hf
                         eq_refl eq_refl eq_refl))).
Defined.

(** ** TransferAsset: its errors, and transferring back *)

Section Transfer_more_facts.
Import Stub SmartContract.

Lemma decode_members_error ms :
  forall a saved a' e,
    (forall x, saved <> Some (JSONError (UnsupportedValueError x))) ->
    JSON.decode_members ms a saved = (a', Some e) ->
    forall x, e <> JSONError (UnsupportedValueError x).
Proof.
  induction ms as [|[key v] ms IH]; intros a saved a' e Hs H; cbn in H.
  - injection H as _ ->. intros x ->. by apply (Hs x).
  - destruct (JSON.lookup_field key) as [f|]; [|by eapply IH].
    destruct (JSON.set_field f v a) as [a1|]; [by eapply IH|].
    eapply IH; [|exact H]. intros x. destruct saved; [apply Hs|discriminate].
Qed.

(** A decoding error is never the encoder's error. *)
Lemma Unmarshal_error (data : bytes) (a a' : Asset) (e : error) :
  JSON.Unmarshal data a = (a', Some e) ->
  forall x, e <> JSONError (UnsupportedValueError x).
Proof.
  intros H x. destruct data as [|n|v]; cbn in H.
  - injection H as _ <-. discriminate.
  - injection H as _ <-. discriminate.
  - destruct v; try discriminate; try (injection H as _ <-; discriminate).
    eapply decode_members_error; [|exact H]. discriminate.
Qed.

End Transfer_more_facts.

(** X10. The errors of [TransferAsset] are: the wrapped error of a read
    the stub failed, the not-found error for a key without a value, the
    decoding error of the stored bytes, or the error of a write the stub
    failed. It is never the encoder's error: a record that was read can
    always be written. *)
Theorem TransferAsset_errors (id newDealerID : string)
    (stub : ChaincodeStub) (e : error) :
  (SmartContract.TransferAsset id newDealerID stub).1.2 = Some e ->
  ((exists msg,
      faults stub (served stub) (CallGetState id) = Some msg /\
      e = ErrorfV "failed to read from world state: " (StubError msg)) \/
   (default Nil (world stub !! id) = Nil /\
    e = Errorf ("the asset " ++ id ++ " does not exist")) \/
   (JSON.Unmarshal (default Nil (world stub !! id)) zeroAsset).2 = Some e \/
   (exists msg data,
      faults stub (S (served stub)) (CallPutState id data) = Some msg /\
      e = StubError msg)) /\
  (forall x, e <> JSONError (UnsupportedValueError x)).
Proof.
  intros H.
  destruct (faults stub (served stub) (CallGetState id)) as [msg|] eqn:Hf.
  { unfold SmartContract.TransferAsset, bind in H.
    rewrite (ReadAsset_fault _ _ _ Hf) in H. cbn in H. injection H as <-.
    split; [left; by exists msg|discriminate]. }
  pose proof (ReadAsset_served _ _ Hf) as Hr.
  destruct (SmartContract.is_nil (default Nil (world stub !! id))) eqn:Hn.
  { unfold SmartContract.TransferAsset, bind in H. rewrite Hr in H.
    cbn in H. injection H as <-. split; [|discriminate].
    right; left. split; [by destruct (default Nil _)|done]. }
  destruct (JSON.Unmarshal (default Nil (world stub !! id)) zeroAsset)
    as [r [e'|]] eqn:Hu.
  { unfold SmartContract.TransferAsset, bind in H. rewrite Hr in H.
    cbn in H. injection H as <-.
    split; [by right; right; left|by apply (Unmarshal_error _ _ _ _ Hu)]. }
  assert (Hr' : (SmartContract.ReadAsset id stub).1 = (Some r, None))
    by (by rewrite Hr).
  rewrite (TransferAsset_read _ newDealerID _ _ Hr') in H.
  destruct (faults (tick stub) (served (tick stub))
              (CallPutState id (encoded (with_DEALERID newDealerID r))))
    as [msg|] eqn:Hp.
  - rewrite (PutState_fault _ _ _ _ Hp) in H. cbn in H. injection H as <-.
    split; [|discriminate]. do 3 right. by eexists _, _.
  - rewrite (PutState_served _ _ _ Hp) in H. discriminate.
Qed.

Lemma TransferAsset_errors_witness :
  (SmartContract.TransferAsset "asset3" "DEALER109" stub_readonly).1.2
    = Some (StubError "ledger is read-only") /\
  StubError "ledger is read-only" <> JSONError (UnsupportedValueError nan).
Proof.
  split; [reflexivity|].
  exact (proj2 (TransferAsset_errors "asset3" "DEALER109" stub_readonly
                  (StubError "ledger is read-only") eq_refl) nan).
Defined.

(** X11. Transferring back: on a stub that serves every call and a key
    that holds the serialization of a record, a [TransferAsset] to a new
    dealer returns the dealer of the record; a second [TransferAsset] to
    that returned dealer returns the new dealer (coerced to valid UTF-8) and
    leaves the world state exactly as it was before the two. *)
Theorem TransferAsset_back (id newDealerID : string) (stub : ChaincodeStub)
    (a : Asset) :
  faultless stub ->
  JSON.Marshal a = (encoded a, None) ->
  world stub !! id = Some (encoded a) ->
  (SmartContract.TransferAsset id newDealerID stub).1
    = (UTF8.toValidUTF8 (DEALERID a), None) /\
  (SmartContract.TransferAsset id (UTF8.toValidUTF8 (DEALERID a))
     (SmartContract.TransferAsset id newDealerID stub).2).1
    = (UTF8.toValidUTF8 newDealerID, None) /\
  world
    (SmartContract.TransferAsset id (UTF8.toValidUTF8 (DEALERID a))
       (SmartContract.TransferAsset id newDealerID stub).2).2
    = world stub.
Proof.
  intros Hf Hm Hv. destruct (Marshal_inv _ _ Hm) as [Hb Ht].
  pose proof (well_formed_sanitized a Hb Ht) as Hwf.
  pose proof (ReadAsset_encoded a id stub (Hf _ _) Hv Hm) as Hr.
  rewrite (TransferAsset_read _ newDealerID _ _ Hr).
  rewrite PutState_served by apply Hf. cbn [fst snd]. split; [done|].
  pose proof (well_formed_with_DEALERID_finite newDealerID _ Hwf) as Hm1.
  set (stub1 := mkStub _ _ _).
  assert (Hf1 : faultless stub1) by exact Hf.
  assert (Hr1 : (SmartContract.ReadAsset id stub1).1
                = (Some (sanitize (with_DEALERID newDealerID (sanitize a))),
                   None)).
  { apply ReadAsset_encoded; [apply Hf|apply lookup_insert_eq|exact Hm1]. }
  rewrite (TransferAsset_read _ (UTF8.toValidUTF8 (DEALERID a)) _ _ Hr1).
  rewrite PutState_served by apply Hf. cbn [fst snd]. split; [done|].
  cbn [world tick stub1].
  assert (He : encoded
                 (with_DEALERID (UTF8.toValidUTF8 (DEALERID a))
                    (sanitize (with_DEALERID newDealerID (sanitize a))))
               = encoded a).
  { unfold encoded. f_equal. apply Marshal_same_sanitize.
    apply (sanitize_transfer_back a newDealerID). }
  rewrite He, insert_insert_eq. by apply insert_id.
Qed.

Lemma TransferAsset_back_witness :
  world
    (SmartContract.TransferAsset "asset3" "DEALER103"
       (SmartContract.TransferAsset "asset3" "DEALER109" stub_seeded).2).2
    = world stub_seeded.
Proof.
  assert (Hf : faultless stub_seeded) by (intros n c; reflexivity).
  exact (proj2 (proj2 (TransferAsset_back "asset3" "DEALER109" stub_seeded
                         asset3_seed Hf eq_refl eq_refl))).
Defined.

(** ** GetAllAssets: order, count, failure *)

Section GetAllAssets_more_facts.
Import Stub SmartContract.

Lemma key_le_transitive : Transitive key_le.
Proof.
  intros x y z. unfold key_le. apply (transitivity (R:=String.le)).
Qed.

Lemma key_le_total : Total key_le.
Proof. intros x y. unfold key_le. apply (total String.le). Qed.

(** The loop returns its slice only without an error. *)
Lemma GetAllAssets_loop_error (todo : list (string * bytes)) :
  forall acc stub rs e,
    (GetAllAssets_loop todo acc stub).1 = (rs, Some e) -> rs = [].
Proof.
  induction todo as [|kv todo IH]; intros acc stub rs e H; [discriminate|].
  cbn [GetAllAssets_loop] in H. unfold Next, bind, serve in H.
  destruct (faults stub (served stub) CallNext); [by injection H as <-|].
  unfold ret at 1 in H.
  destruct (JSON.Unmarshal kv.2 zeroAsset) as [asset [e'|]];
    [by injection H as <-|].
  by eapply IH.
Qed.

(** When the loop returns without an error, it has decoded every entry, in
    the order of the entries. *)
Lemma GetAllAssets_loop_success (todo : list (string * bytes)) :
  forall acc stub rs,
    (GetAllAssets_loop todo acc stub).1 = (rs, None) ->
    exists rs',
      rs = (acc ++ rs')%list /\
      Forall2 (fun kv r => JSON.Unmarshal kv.2 zeroAsset = (r, None)) todo rs'.
Proof.
  induction todo as [|kv todo IH]; intros acc stub rs H.
  { injection H as <-. exists []. by rewrite app_nil_r. }
  cbn [GetAllAssets_loop] in H. unfold Next, bind, serve in H.
  destruct (faults stub (served stub) CallNext); [discriminate|].
  unfold ret at 1 in H.
  destruct (JSON.Unmarshal kv.2 zeroAsset) as [asset [e'|]] eqn:Hu;
    [discriminate|].
  apply IH in H as (rs' & -> & Hall). exists (asset :: rs').
  split; [by rewrite <- app_assoc|]. by constructor.
Qed.

(** A successful [GetAllAssets] has decoded the entries of the world
    state, sorted by key. *)
Lemma GetAllAssets_success (stub : ChaincodeStub) (rs : list Asset) :
  (GetAllAssets stub).1 = (rs, None) ->
  Forall2 (fun kv r => JSON.Unmarshal kv.2 zeroAsset = (r, None))
    (merge_sort key_le (map_to_list (world stub))) rs.
Proof.
  unfold GetAllAssets, GetStateByRange, bind, serve.
  destruct (faults stub (served stub) (CallGetStateByRange "" ""));
    [discriminate|].
  rewrite filter_in_range_all.
  by intros (rs' & -> & Hall)%GetAllAssets_loop_success.
Qed.

End GetAllAssets_more_facts.

(** X12. Whenever [GetAllAssets] returns an error, the slice it returns is
    nil: the records decoded before the failure are not handed out. *)
Theorem GetAllAssets_error_nil (stub : ChaincodeStub) (rs : list Asset)
    (e : error) :
  (SmartContract.GetAllAssets stub).1 = (rs, Some e) -> rs = [].
Proof.
  unfold SmartContract.GetAllAssets, Stub.GetStateByRange, bind, Stub.serve.
  destruct (faults stub (served stub) (CallGetStateByRange "" ""));
    [by intros [= <- _]|].
  apply GetAllAssets_loop_error.
Qed.

Lemma GetAllAssets_error_nil_witness :
  (SmartContract.ReadAsset "asset3" stub_corrupt).1 = (Some asset3_seed, None) /\
  (SmartContract.GetAllAssets stub_corrupt).1.2
    = Some (JSONError SyntaxError) /\
  (SmartContract.GetAllAssets stub_corrupt).1.1 = [].
Proof.
  split; [reflexivity|]. split; [reflexivity|].
  apply (GetAllAssets_error_nil stub_corrupt _ (JSONError SyntaxError)).
  reflexivity.
Defined.

(** X13. When [GetAllAssets] succeeds it returns one record for each key
    of the world state, in the ascending lexical order of the keys: the
    record decoded from the value of the key. *)
Theorem GetAllAssets_sorted (stub : ChaincodeStub) (rs : list Asset) :
  (SmartContract.GetAllAssets stub).1 = (rs, None) ->
  exists kvs,
    Permutation kvs (map_to_list (world stub)) /\
    StronglySorted Stub.key_le kvs /\
    Forall2 (fun kv r => JSON.Unmarshal kv.2 zeroAsset = (r, None)) kvs rs /\
    length rs = size (world stub).
Proof.
  intros H%GetAllAssets_success. eexists. split; [|split; [|split]].
  - apply (merge_sort_Permutation Stub.key_le).
  - apply (@StronglySorted_merge_sort _ Stub.key_le _ key_le_transitive
             key_le_total).
  - exact H.
  - rewrite <- (Forall2_length _ _ _ H),
      (merge_sort_Permutation Stub.key_le).
    apply length_map_to_list.
Qed.

Lemma GetAllAssets_sorted_witness :
  map ID (SmartContract.GetAllAssets stub_seeded).1.1
    = ["asset1"; "asset2"; "asset3"; "asset4"; "asset5"; "asset6"; "asset7"] /\
  length (SmartContract.GetAllAssets stub_seeded).1.1 = size (world stub_seeded).
Proof.
  split; [reflexivity|].
  assert (H : (SmartContract.GetAllAssets stub_seeded).1
              = ((SmartContract.GetAllAssets stub_seeded).1.1, None))
    by reflexivity.
  destruct (GetAllAssets_sorted _ _ H) as (kvs & _ & _ & _ & Hlen).
  exact Hlen.
Defined.

(** X14. On a stub that serves every call, [GetAllAssets] succeeds exactly
    when every value of the world state decodes; one value that does not
    makes the whole call fail. *)
Theorem GetAllAssets_success_iff (stub : ChaincodeStub) :
  faultless stub ->
  ((SmartContract.GetAllAssets stub).1.2 = None <->
   forall key value,
     world stub !! key = Some value ->
     (JSON.Unmarshal value zeroAsset).2 = None).
Proof.
  intros Hf. split.
  - intros H key value Hv.
    destruct (SmartContract.GetAllAssets stub).1 as [rs e] eqn:Hg.
    cbn in H. subst e. apply GetAllAssets_success in Hg.
    assert (Hin : (key, value) ∈ merge_sort Stub.key_le
                                   (map_to_list (world stub)))
      by (rewrite (merge_sort_Permutation Stub.key_le);
          by apply elem_of_map_to_list).
    apply list_elem_of_lookup in Hin as [i Hi].
    destruct (Forall2_lookup_l _ _ _ _ _ Hg Hi) as (r & _ & Hu).
    cbn in Hu. by rewrite Hu.
  - intros Hall.
    destruct (GetAllAssets_faultless stub Hf) as (rs & -> & _); [|done].
    intros [key value] Hkv%elem_of_map_to_list. by apply (Hall key).
Qed.

Lemma GetAllAssets_success_iff_witness :
  (SmartContract.GetAllAssets stub_seeded).1.2 = None /\
  (SmartContract.GetAllAssets stub_corrupt).1.2 <> None.
Proof.
  assert (Hf : faultless stub_corrupt) by (intros n c; reflexivity).
  split; [reflexivity|]. intros H.
  pose proof (proj1 (GetAllAssets_success_iff stub_corrupt Hf) H
                "asset4" (NotJSON 0) eq_refl) as Hu.
  discriminate Hu.
Defined.

(** X15. [GetAllAssets] and [ReadAsset] agree: when [GetAllAssets] succeeds,
    every record [ReadAsset] returns for some key is among its records, and
    each of its records is the one stored under some key of the world
    state. *)
Theorem GetAllAssets_ReadAsset (stub : ChaincodeStub) (rs : list Asset) :
  (SmartContract.GetAllAssets stub).1 = (rs, None) ->
  (forall key a,
     (SmartContract.ReadAsset key stub).1 = (Some a, None) -> a ∈ rs) /\
  (forall a, a ∈ rs ->
     exists key value,
       world stub !! key = Some value /\
       JSON.Unmarshal value zeroAsset = (a, None)).
Proof.
  intros Hg%GetAllAssets_success. split.
  - intros key a (_ & Hu & _)%ReadAsset_Some.
    destruct (world stub !! key) as [value|] eqn:Hv; [|discriminate].
    cbn in Hu.
    assert (Hin : (key, value) ∈ merge_sort Stub.key_le
                                   (map_to_list (world stub)))
      by (rewrite (merge_sort_Permutation Stub.key_le);
          by apply elem_of_map_to_list).
    apply list_elem_of_lookup in Hin as [i Hi].
    destruct (Forall2_lookup_l _ _ _ _ _ Hg Hi) as (r & Hr & Hu').
    cbn in Hu'. rewrite Hu in Hu'. injection Hu' as ->.
    apply list_elem_of_lookup. by exists i.
  - intros a [i Hi]%list_elem_of_lookup.
    destruct (Forall2_lookup_r _ _ _ _ _ Hg Hi) as ([key value] & Hkv & Hu).
    exists key, value. split; [|exact Hu].
    apply elem_of_map_to_list. rewrite <- (merge_sort_Permutation Stub.key_le).
    apply list_elem_of_lookup. by exists i.
Qed.

Lemma GetAllAssets_ReadAsset_witness :
  asset3_seed ∈ (SmartContract.GetAllAssets stub_seeded).1.1.
Proof.
  assert (H : (SmartContract.GetAllAssets stub_seeded).1
              = ((SmartContract.GetAllAssets stub_seeded).1.1, None))
    by reflexivity.
  apply (proj1 (GetAllAssets_ReadAsset _ _ H) "asset3"). reflexivity.
Defined.

(** ** What the contract stores can be read *)

Section Reachable_facts.
Import Stub SmartContract.

(** The loop of [InitLedger] makes one call for each record, a write, and
    stops at the first one the stub fails. *)
Lemma InitLedger_loop_calls (todo : list Asset) :
  forall stub,
    (forall a, a ∈ todo -> JSON.Marshal a = (encoded a, None)) ->
    match (InitLedger_loop todo stub).1 with
    | None =>
        (forall k a, todo !! k = Some a ->
           faults stub (served stub + k) (CallPutState (ID a) (encoded a))
           = None) /\
        served (InitLedger_loop todo stub).2 = served stub + length todo
    | Some e =>
        exists msg k a,
          todo !! k = Some a /\
          faults stub (served stub + k) (CallPutState (ID a) (encoded a))
          = Some msg /\
          (forall j b, j < k -> todo !! j = Some b ->
             faults stub (served stub + j) (CallPutState (ID b) (encoded b))
             = None) /\
          e = ErrorfV "failed to put to world state: " (StubError msg) /\
          served (InitLedger_loop todo stub).2 = served stub + k + 1
    end.
Proof.
  induction todo as [|a todo IH]; intros stub Hall.
  { cbn. split; [intros k a H; by rewrite lookup_nil in H|lia]. }
  cbn [InitLedger_loop]. rewrite (Hall a ltac:(left)). unfold bind.
  destruct (faults stub (served stub) (CallPutState (ID a) (encoded a)))
    as [msg|] eqn:Hf.
  - rewrite (PutState_fault _ _ _ _ Hf). cbn.
    exists msg, 0, a. rewrite Nat.add_0_r.
    split; [done|]. split; [done|]. split; [lia|]. split; [done|lia].
  - rewrite (PutState_served _ _ _ Hf).
    specialize (IH (mkStub (<[ID a:=encoded a]> (world stub))
                      (S (served stub)) (faults stub))
                  (fun x Hx => Hall x ltac:(by right))).
    cbn [served faults] in IH.
    destruct (InitLedger_loop todo _).1 as [e|].
    + destruct IH as (msg & k & b & Hk & Hfk & Hbefore & -> & Hs).
      exists msg, (S k), b. split; [done|].
      split; [by rewrite Nat.add_succ_r|].
      split; [|split; [done|rewrite Hs; lia]].
      intros [|j] c Hj Hc.
      * cbn in Hc. injection Hc as <-. by rewrite Nat.add_0_r.
      * rewrite Nat.add_succ_r. apply (Hbefore j c); [lia|done].
    + destruct IH as [Hall' Hs]. split; [|rewrite Hs; cbn [length]; lia].
      intros [|k] c Hc.
      * cbn in Hc. injection Hc as <-. by rewrite Nat.add_0_r.
      * rewrite Nat.add_succ_r. by apply (Hall' k c).
Qed.

End Reachable_facts.

(** X16. The contract can read whatever it has written: in every world
    state reached from the empty one by its transactions, [ReadAsset]
    succeeds on every key that has a value, given that the stub serves the
    read, and returns a record whose ID is the key (with invalid UTF-8
    replaced); and [GetAllAssets], on a stub that serves every call,
    succeeds with as many records as the world state has keys. *)
Theorem reachable_readable (stub : ChaincodeStub) :
  reachable stub ->
  (forall key value,
     world stub !! key = Some value ->
     faults stub (served stub) (CallGetState key) = None ->
     exists r,
       (SmartContract.ReadAsset key stub).1 = (Some r, None) /\
       ID r = UTF8.toValidUTF8 key) /\
  (faultless stub ->
   exists rs,
     (SmartContract.GetAllAssets stub).1 = (rs, None) /\
     length rs = size (world stub)).
Proof.
  intros Hr%key_coerced_is_id_reachable. split.
  - intros key value Hv Hf. destruct (Hr key value Hv) as (r & Hu & Hid).
    exists r. split; [|exact Hid].
    rewrite (ReadAsset_served _ _ Hf), Hv. cbn [from_option id fst].
    destruct value as [|n|v]; [discriminate..|]. cbn [SmartContract.is_nil].
    by rewrite Hu.
  - intros Hf. destruct (GetAllAssets_faultless stub Hf) as (rs & Hg & Hp).
    + intros [key value] Hkv%elem_of_map_to_list.
      destruct (Hr key value Hkv) as (r & Hu & _). cbn.
      by rewrite Hu.
    + exists rs. split; [exact Hg|].
      by rewrite Hp, length_map, length_map_to_list.
Qed.

Lemma reachable_readable_witness :
  exists rs,
    (SmartContract.GetAllAssets
       (invoke (Delete "asset2")
          (invoke (Create asset9) (invoke Seed stub_empty)))).1 = (rs, None) /\
    length rs = 7.
Proof.
  assert (Hr : reachable
                 (invoke (Delete "asset2")
                    (invoke (Create asset9) (invoke Seed stub_empty)))).
  { do 3 apply reachable_invoke. by apply reachable_empty. }
  destruct (proj2 (reachable_readable _ Hr)) as (rs & Hg & Hlen).
  { intros n c. reflexivity. }
  exists rs. split; [exact Hg|]. rewrite Hlen. reflexivity.
Defined.

(** X17. [InitLedger] makes seven calls to the stub, the writes of its
    seven records in the order of the list, and succeeds exactly when all
    of them are served. When it fails, the error is the wrapped error of
    the first write the stub failed (never the encoder's: the seven
    records always serialize), and [InitLedger] makes no call after it. *)
Theorem InitLedger_outcome (stub : ChaincodeStub) :
  ((SmartContract.InitLedger stub).1 = None <->
   forall k a, SmartContract.assets !! k = Some a ->
     faults stub (served stub + k) (CallPutState (ID a) (encoded a)) = None) /\
  ((SmartContract.InitLedger stub).1 = None ->
   served (SmartContract.InitLedger stub).2 = served stub + 7) /\
  (forall e,
     (SmartContract.InitLedger stub).1 = Some e ->
     exists msg k a,
       SmartContract.assets !! k = Some a /\
       faults stub (served stub + k) (CallPutState (ID a) (encoded a))
       = Some msg /\
       (forall j b, j < k -> SmartContract.assets !! j = Some b ->
          faults stub (served stub + j) (CallPutState (ID b) (encoded b))
          = None) /\
       e = ErrorfV "failed to put to world state: " (StubError msg) /\
       served (SmartContract.InitLedger stub).2 = served stub + k + 1).
Proof.
  pose proof (InitLedger_loop_calls SmartContract.assets stub Marshal_assets)
    as H.
  unfold SmartContract.InitLedger.
  destruct (SmartContract.InitLedger_loop SmartContract.assets stub).1
    as [e|].
  - destruct H as (msg & k & a & Hk & Hf & Hbefore & -> & Hs).
    split; [split; [discriminate|]|split; [discriminate|]].
    + intros Hall. rewrite (Hall k a Hk) in Hf. discriminate.
    + intros e [= <-]. by exists msg, k, a.
  - destruct H as [Hall Hs].
    split; [by split|]. split; [done|discriminate].
Qed.

Lemma InitLedger_outcome_witness :
  (SmartContract.InitLedger stub_third_put_fails).1
    = Some (ErrorfV "failed to put to world state: " (StubError "disk full")) /\
  served (SmartContract.InitLedger stub_third_put_fails).2 = 3 /\
  exists msg k a,
    SmartContract.assets !! k = Some a /\
    faults stub_third_put_fails k (CallPutState (ID a) (encoded a))
    = Some msg.
Proof.
  split; [reflexivity|]. split; [reflexivity|].
  destruct (proj2 (proj2 (InitLedger_outcome stub_third_put_fails)) _ eq_refl)
    as (msg & k & a & Hk & Hf & _).
  by exists msg, k, a.
Defined.

(** ** The wire form of a record *)

(** X18. Round trip of the wire form: a record with finite numbers
    serializes, to bytes that are not empty, and decoding these bytes into
    any variable gives the record with its strings coerced to valid UTF-8;
    so a well-formed record comes back exactly, all nine fields. *)
Theorem Marshal_Unmarshal_round_trip (a a0 : Asset) :
  is_finite (BALANCE a) = true ->
  is_finite (TRANSAMOUNT a) = true ->
  JSON.Marshal a = (encoded a, None) /\
  encoded a <> Nil /\
  JSON.Unmarshal (encoded a) a0 = (sanitize a, None) /\
  (well_formed a = true -> JSON.Unmarshal (encoded a) a0 = (a, None)).
Proof.
  intros Hb Ht.
  assert (Hm : JSON.Marshal a = (encoded a, None))
    by (rewrite (Marshal_finite a Hb Ht); unfold encoded;
        by rewrite (Marshal_finite a Hb Ht)).
  split; [exact Hm|]. split.
  - intros Hn. apply (Marshal_not_Nil a). by rewrite Hm, Hn.
  - split; [by apply Unmarshal_Marshal|].
    intros Hwf. rewrite (Unmarshal_Marshal a a0 _ Hm).
    by rewrite (well_formed_sanitize a Hwf).
Qed.

Lemma Marshal_Unmarshal_round_trip_witness :
  JSON.Unmarshal (encoded asset9) asset3_seed = (asset9, None).
Proof.
  destruct (Marshal_Unmarshal_round_trip asset9 asset3_seed eq_refl eq_refl)
    as (_ & _ & _ & H).
  apply H. reflexivity.
Defined.

(** ** The TLS properties of the chaincode server *)

Section Server_facts.
Import Server.

Lemma getBoolOrDefault_false (value : string) :
  getBoolOrDefault value false = true <-> In value true_spellings.
Proof.
  unfold getBoolOrDefault, ParseBool. fold true_spellings.
  destruct (existsb (String.eqb value) true_spellings) eqn:Ht.
  - split; [intros _|done].
    apply existsb_exists in Ht as (x & Hx & ->%String.eqb_eq). exact Hx.
  - assert (Hn : ~ In value true_spellings).
    { intros Hin.
      assert (existsb (String.eqb value) true_spellings = true)
        by (apply existsb_exists; exists value; split;
            [done|apply String.eqb_refl]).
      congruence. }
    destruct (existsb (String.eqb value)
                ["0"; "f"; "F"; "FALSE"; "false"; "False"]);
      (split; [intros Hin; discriminate Hin|intros Hin; by destruct Hn]).
Qed.

Lemma getEnvOrDefault_lookup (os : OS) (env defaultVal : string) :
  getEnvOrDefault os env defaultVal = default defaultVal (environ os !! env).
Proof.
  unfold getEnvOrDefault, LookupEnv. by destruct (environ os !! env).
Qed.

(** Whether the server runs without TLS, as [getTLSProperties] works it
    out. *)
Lemma tlsDisabled_iff (os : OS) :
  getBoolOrDefault (getEnvOrDefault os "CHAINCODE_TLS_DISABLED" "true") false
    = true <->
  tls_switched_off os.
Proof.
  unfold tls_switched_off.
  rewrite getBoolOrDefault_false, getEnvOrDefault_lookup.
  destruct (environ os !! "CHAINCODE_TLS_DISABLED") as [v|]; cbn.
  - split; [intros H; right; by exists v|].
    intros [?|(x & [= ->] & Hx)]; [done|exact Hx].
  - split; [by left|]. intros _. vm_compute. tauto.
Qed.

Lemma getTLSProperties_Returns (os : OS) (p : TLSProperties) :
  getTLSProperties os = Returns p ->
  Disabled p
    = getBoolOrDefault (getEnvOrDefault os "CHAINCODE_TLS_DISABLED" "true")
        false /\
  (Disabled p = true -> Key p = None /\ Cert p = None) /\
  (Disabled p = false ->
   files os (getEnvOrDefault os "CHAINCODE_TLS_KEY" "") = inl (default "" (Key p)) /\
   Key p <> None /\
   files os (getEnvOrDefault os "CHAINCODE_TLS_CERT" "")
     = inl (default "" (Cert p)) /\
   Cert p <> None) /\
  (if String.eqb (getEnvOrDefault os "CHAINCODE_CLIENT_CA_CERT" "") ""
   then ClientCACerts p = None
   else
     files os (getEnvOrDefault os "CHAINCODE_CLIENT_CA_CERT" "")
       = inl (default "" (ClientCACerts p)) /\
     ClientCACerts p <> None).
Proof.
  unfold getTLSProperties, ReadFile, crypto_panic.
  destruct (getBoolOrDefault _ false); cbn [negb].
  - destruct (String.eqb (getEnvOrDefault os "CHAINCODE_CLIENT_CA_CERT" "") "");
      cbn [negb].
    + intros [= <-]. cbn. repeat split; done.
    + destruct (files os (getEnvOrDefault os "CHAINCODE_CLIENT_CA_CERT" ""));
        [|discriminate].
      intros [= <-]. cbn. repeat split; done.
  - destruct (files os (getEnvOrDefault os "CHAINCODE_TLS_KEY" ""));
      [|discriminate].
    destruct (files os (getEnvOrDefault os "CHAINCODE_TLS_CERT" ""));
      [|discriminate].
    destruct (String.eqb (getEnvOrDefault os "CHAINCODE_CLIENT_CA_CERT" "") "");
      cbn [negb].
    + intros [= <-]. cbn. repeat split; done.
    + destruct (files os (getEnvOrDefault os "CHAINCODE_CLIENT_CA_CERT" ""));
        [|discriminate].
      intros [= <-]. cbn. repeat split; done.
Qed.

End Server_facts.

(** X19. The server runs without TLS exactly when CHAINCODE_TLS_DISABLED
    is not set or is set to one of the six spellings of true that
    [strconv.ParseBool] knows (1, t, T, TRUE, true, True); a value that is
    set and not understood, the empty string among them, switches TLS
    on. *)
Theorem getTLSProperties_Disabled (os : OS) (p : TLSProperties) :
  Server.getTLSProperties os = Returns p ->
  (Disabled p = true <-> tls_switched_off os).
Proof.
  intros (-> & _)%getTLSProperties_Returns. apply tlsDisabled_iff.
Qed.

Lemma getTLSProperties_Disabled_witness :
  environ os_tls !! "CHAINCODE_TLS_DISABLED" = Some "no" /\
  Server.getTLSProperties os_tls
    = Returns (mkTLSProperties false (Some "KEY") (Some "CERT") None) /\
  ~ tls_switched_off os_tls.
Proof.
  split; [reflexivity|]. split; [reflexivity|]. intros H.
  apply (getTLSProperties_Disabled os_tls _ eq_refl) in H. discriminate H.
Defined.

(** X20. Without TLS and without a client CA certificate (the variable not
    set or empty) [getTLSProperties] reads no file: whatever the files are,
    and whatever CHAINCODE_TLS_KEY and CHAINCODE_TLS_CERT say, it returns,
    with TLS disabled and nil for the key, the certificate and the client
    CA certificates. *)
Theorem getTLSProperties_no_TLS (os : OS) :
  tls_switched_off os ->
  default "" (environ os !! "CHAINCODE_CLIENT_CA_CERT") = "" ->
  Server.getTLSProperties os = Returns (mkTLSProperties true None None None).
Proof.
  intros Hd%tlsDisabled_iff Hca. unfold Server.getTLSProperties.
  rewrite Hd. cbn [negb].
  by rewrite (getEnvOrDefault_lookup os "CHAINCODE_CLIENT_CA_CERT"), Hca.
Qed.

Lemma getTLSProperties_no_TLS_witness :
  Server.getTLSProperties os_bare
    = Returns (mkTLSProperties true None None None).
Proof.
  apply getTLSProperties_no_TLS; [by left|reflexivity].
Defined.

(** X21. What [getTLSProperties] returns: with TLS disabled the key and
    the certificate are nil, even when their variables name files; with TLS
    on they are the contents of the files named by CHAINCODE_TLS_KEY and
    CHAINCODE_TLS_CERT (the path is empty when the variable is not set);
    the client CA certificates are nil exactly for a CHAINCODE_CLIENT_CA_CERT
    that is not set or empty, and else the contents of the file it names. *)
Theorem getTLSProperties_contents (os : OS) (p : TLSProperties) :
  Server.getTLSProperties os = Returns p ->
  (Disabled p = true -> Key p = None /\ Cert p = None) /\
  (Disabled p = false ->
   exists key cert,
     Key p = Some key /\ Cert p = Some cert /\
     files os (default "" (environ os !! "CHAINCODE_TLS_KEY")) = inl key /\
     files os (default "" (environ os !! "CHAINCODE_TLS_CERT")) = inl cert) /\
  (default "" (environ os !! "CHAINCODE_CLIENT_CA_CERT") = "" ->
   ClientCACerts p = None) /\
  (default "" (environ os !! "CHAINCODE_CLIENT_CA_CERT") <> "" ->
   exists ca,
     ClientCACerts p = Some ca /\
     files os (default "" (environ os !! "CHAINCODE_CLIENT_CA_CERT"))
       = inl ca).
Proof.
  intros (_ & Hdis & Hen & Hca)%getTLSProperties_Returns.
  rewrite !getEnvOrDefault_lookup in Hen, Hca.
  split; [exact Hdis|]. split; [|split].
  - intros Hd. destruct (Hen Hd) as (Hk & Hkn & Hc & Hcn).
    destruct (Key p) as [key|]; [|done]. destruct (Cert p) as [cert|]; [|done].
    rewrite (getEnvOrDefault_lookup os "CHAINCODE_TLS_CERT") in Hc.
    exists key, cert. split; [done|]. split; [done|].
    split; [exact Hk|exact Hc].
  - intros He. rewrite He in Hca. exact Hca.
  - intros Hne.
    destruct (String.eqb _ "") eqn:Heq;
      [by apply String.eqb_eq in Heq|].
    destruct Hca as [Hf Hn]. destruct (ClientCACerts p) as [ca|]; [|done].
    rewrite ?getEnvOrDefault_lookup in Hf.
    exists ca. split; [reflexivity|exact Hf].
Qed.

Lemma getTLSProperties_contents_witness :
  exists key cert,
    Key (mkTLSProperties false (Some "KEY") (Some "CERT") None) = Some key /\
    Cert (mkTLSProperties false (Some "KEY") (Some "CERT") None) = Some cert /\
    files os_tls "/tls/key.pem" = inl key /\
    files os_tls "/tls/cert.pem" = inl cert.
Proof.
  exact (proj1 (proj2 (getTLSProperties_contents os_tls
                         (mkTLSProperties false (Some "KEY") (Some "CERT") None)
                         eq_refl)) eq_refl).
Defined.

(** X22. [getTLSProperties] panics exactly when a file it needs cannot be
    read: with TLS on, the file of the key or the file of the certificate;
    and, with TLS on or off, the file of a client CA certificate that is
    configured. *)
Theorem getTLSProperties_panics_iff (os : OS) :
  (exists msg, Server.getTLSProperties os = Panics msg) <->
  (~ tls_switched_off os /\
   ((exists e, files os (default "" (environ os !! "CHAINCODE_TLS_KEY")) = inr e) \/
    (exists e, files os (default "" (environ os !! "CHAINCODE_TLS_CERT")) = inr e)))
  \/
  (default "" (environ os !! "CHAINCODE_CLIENT_CA_CERT") <> "" /\
   exists e,
     files os (default "" (environ os !! "CHAINCODE_CLIENT_CA_CERT")) = inr e).
Proof.
  rewrite <- tlsDisabled_iff.
  unfold Server.getTLSProperties, Server.ReadFile, Server.crypto_panic.
  rewrite (getEnvOrDefault_lookup os "CHAINCODE_TLS_KEY"),
    (getEnvOrDefault_lookup os "CHAINCODE_TLS_CERT"),
    (getEnvOrDefault_lookup os "CHAINCODE_CLIENT_CA_CERT").
  destruct (Server.getBoolOrDefault _ false); cbn [negb];
    destruct (files os (default "" (environ os !! "CHAINCODE_TLS_KEY")))
      as [key|ek];
    destruct (files os (default "" (environ os !! "CHAINCODE_TLS_CERT")))
      as [cert|ec];
    (destruct (String.eqb
                 (default "" (environ os !! "CHAINCODE_CLIENT_CA_CERT")) "")
       eqn:Heq;
     [apply String.eqb_eq in Heq|apply String.eqb_neq in Heq]); cbn [negb];
    destruct (files os (default "" (environ os !! "CHAINCODE_CLIENT_CA_CERT")))
      as [ca|eca];
    (split;
     [ intros [msg Hp];
       first
         [ discriminate Hp
         | left; split; [discriminate|]; left; by eexists
         | left; split; [discriminate|]; right; by eexists
         | right; split; [exact Heq|by eexists] ]
     | intros Hr;
       first
         [ by eexists
         | destruct Hr as [[Hd [[e He]|[e He]]]|[Hne [e He]]];
           first [discriminate | by destruct Hne | by destruct Hd] ] ]).
Qed.

Lemma getTLSProperties_panics_iff_witness :
  environ os_empty_flag !! "CHAINCODE_TLS_DISABLED" = Some "" /\
  exists msg, Server.getTLSProperties os_empty_flag = Panics msg.
Proof.
  split; [reflexivity|].
  apply getTLSProperties_panics_iff. left. split.
  - intros [H|(value & [= <-] & Hin)]; [discriminate H|].
    cbn in Hin. intuition discriminate.
  - left. by eexists.
Defined.

(** ** Records that are read; InitLedger over a used ledger *)

Section Read_facts.
Import Stub SmartContract.

Lemma well_formed_assets : forall a, a ∈ assets -> well_formed a = true.
Proof.
  apply Forall_forall. unfold assets.
  repeat (apply Forall_cons; split; [reflexivity|]). apply Forall_nil_2.
Qed.

Lemma Forall2_decoded_well_formed (kvs : list (string * bytes))
    (rs : list Asset) :
  Forall2 (fun kv r => JSON.Unmarshal kv.2 zeroAsset = (r, None)) kvs rs ->
  Forall (fun r => well_formed r = true) rs.
Proof.
  induction 1 as [|kv r kvs rs Hu _ IH]; constructor; [|exact IH].
  by apply (Unmarshal_well_formed kv.2 zeroAsset r None).
Qed.

End Read_facts.

(** X23. Every record [ReadAsset] or [GetAllAssets] returns is well-formed:
    its two numbers are finite and its seven strings are valid UTF-8,
    whatever bytes the world state holds. *)
Theorem read_records_well_formed (stub : ChaincodeStub) :
  (forall id a,
     (SmartContract.ReadAsset id stub).1 = (Some a, None) ->
     well_formed a = true) /\
  (forall rs,
     (SmartContract.GetAllAssets stub).1 = (rs, None) ->
     Forall (fun r => well_formed r = true) rs).
Proof.
  split.
  - intros id a Hr. by apply ReadAsset_Some in Hr as (_ & _ & Hwf).
  - intros rs Hg%GetAllAssets_success.
    by apply Forall2_decoded_well_formed in Hg.
Qed.

(** X24. [InitLedger] overwrites: after an [InitLedger] that succeeded,
    whatever the world state held before (also changed or deleted records
    of an earlier [InitLedger]), [ReadAsset] on the ID of each of the seven
    records returns exactly that record, when the stub serves the read. *)
Theorem InitLedger_then_ReadAsset (stub stub1 : ChaincodeStub) (a : Asset) :
  SmartContract.InitLedger stub = (None, stub1) ->
  a ∈ SmartContract.assets ->
  faults stub1 (served stub1) (CallGetState (ID a)) = None ->
  (SmartContract.ReadAsset (ID a) stub1).1 = (Some a, None).
Proof.
  intros H Ha Hf. apply InitLedger_loop_success in H.
  rewrite <- (well_formed_sanitize a (well_formed_assets a Ha)) at 2.
  apply ReadAsset_encoded; [exact Hf| |by apply Marshal_assets].
  rewrite H. by apply foldl_insert_in, Ha; apply NoDup_assets.
Qed.

Lemma InitLedger_then_ReadAsset_witness :
  (SmartContract.ReadAsset "asset3" stub_transferred).1
    = (Some (with_DEALERID "DEALER109" asset3_seed), None) /\
  (SmartContract.ReadAsset "asset3"
     (SmartContract.InitLedger stub_transferred).2).1
    = (Some asset3_seed, None).
Proof.
  split; [vm_compute; reflexivity|].
  assert (H : SmartContract.InitLedger stub_transferred
              = (None, (SmartContract.InitLedger stub_transferred).2))
    by (vm_compute; reflexivity).
  assert (Ha : asset3_seed ∈ SmartContract.assets) by (do 2 right; left).
  apply (InitLedger_then_ReadAsset _ _ asset3_seed H Ha).
  vm_compute; reflexivity.
Defined.
